(** * novo_muta: the simulation-probability utility, the EM driver and the
    trio model interface

  A shallow embedding of
  - [counts_probability.cc]: the line loop of [main], with the part of
    [std::stringstream] that [operator>>(int&)] exercises;
  - [bam_driver.cc]: the expectation-maximization loop of [main], the
    operations of [TrioModel] and [SufficientStatistics] it calls being
    parameters;
  - [trio_model.h]: the members the class declares, with the constructor
    and [Equals], which the header only declares, modelled from the
    specification.

  [double] is the binary64 type of the kernel ([PrimFloat]); [int] is a
  32-bit two's complement integer carried in [Z]. *)

From Stdlib Require Import ZArith List String Ascii Bool Lia Floats.
From Stdlib Require Import Decimal DecimalString DecimalN.
Import ListNotations.

Local Open Scope Z_scope.

(** A decimal literal such as 0.1 denotes the nearest binary64, as in C++. *)
Set Warnings "-inexact-float".

(* ================================================================== *)
(** * Machine integers and doubles *)

Module Int.

Definition INT_MAX : Z := 2147483647.
Definition INT_MIN : Z := -2147483648.

(** Two's complement wrap-around of a 32-bit signed integer. *)
Definition wrap (z : Z) : Z := (z + 2147483648) mod 4294967296 - 2147483648.

Definition add (a b : Z) : Z := wrap (a + b).

Definition in_range (z : Z) : Prop := INT_MIN <= z <= INT_MAX.

(** [(double) i] for an [int]: exact, every 32-bit integer is a binary64. *)
Definition to_double (z : Z) : float :=
  if z <? 0 then PrimFloat.opp (PrimFloat.of_uint63 (Uint63.of_Z (- z)))
  else PrimFloat.of_uint63 (Uint63.of_Z z).

End Int.

(* ================================================================== *)
(** * [std::stringstream] as [operator>>(int&)] sees it *)

Module Istream.

Local Open Scope char_scope.

(** The characters not yet extracted and the two state bits the
    extraction consults ([badbit] is never raised by a string buffer). *)
Record stream : Type := mkstream {
  buf : string;
  eofbit : bool;
  failbit : bool
}.

(** [stringstream str(line)]. *)
Definition open (line : string) : stream :=
  {| buf := line; eofbit := false; failbit := false |}.

Definition good (s : stream) : bool := negb (eofbit s) && negb (failbit s).

(** [isspace] of the classic locale. *)
Definition isspace (c : ascii) : bool :=
  match c with
  | " " | "009" | "010" | "011" | "012" | "013" => true
  | _ => false
  end.

Definition isdigit (c : ascii) : bool :=
  match c with
  | "0" | "1" | "2" | "3" | "4" | "5" | "6" | "7" | "8" | "9" => true
  | _ => false
  end.

Definition digit_value (c : ascii) : Z := Z.of_N (N_of_ascii c) - 48.

Fixpoint skipws (s : string) : string :=
  match s with
  | String c r => if isspace c then skipws r else s
  | EmptyString => EmptyString
  end.

(** [istream::sentry] with [skipws] set (C++11 27.7.2.1.3): when
    [is.good()] is false the constructor calls [is.setstate(failbit)] and
    the sentry converts to false; otherwise white space is skipped, and
    reaching the end while skipping calls [setstate(failbit | eofbit)]. *)
Definition sentry (s : stream) : bool * stream :=
  if good s then
    match skipws (buf s) with
    | EmptyString => (false, {| buf := EmptyString; eofbit := true; failbit := true |})
    | rest => (true, {| buf := rest; eofbit := false; failbit := false |})
    end
  else (false, {| buf := buf s; eofbit := eofbit s; failbit := true |}).

(** Stage 2 of [num_get] for a decimal field: the longest run of digits,
    accumulated most significant digit first. *)
Fixpoint digits (s : string) (acc : Z) (seen : bool) : Z * bool * string :=
  match s with
  | String c r =>
      if isdigit c then digits r (10 * acc + digit_value c) true
      else (acc, seen, s)
  | EmptyString => (acc, seen, s)
  end.

Definition at_end (s : string) : bool :=
  match s with EmptyString => true | _ => false end.

(** An optional sign in front of the digits. *)
Definition sign (b : string) : bool * string :=
  match b with
  | String "-" r => (true, r)
  | String "+" r => (false, r)
  | _ => (false, b)
  end.

(** [operator>>(int &val)] (C++11 27.7.2.2.1 and 27.7.2.2.2): a formatted
    input function converts only if the sentry converts to true, so when it
    refuses [val] keeps its value. Otherwise [num_get] accumulates the
    field; a field with no digit stores 0 and raises [failbit] (22.4.2.1.2,
    stage 3), and a value outside [int] stores the nearest bound and raises
    [failbit]. ([basefield] is [dec], the default of a new stream.) *)
Definition get_int (s : stream) (val : Z) : Z * stream :=
  let (ok, s1) := sentry s in
  if ok then
    let (neg, body) := sign (buf s1) in
    let '(mag, seen, rest) := digits body 0 false in
    let v := if neg then - mag else mag in
    let st (f : bool) := {| buf := rest; eofbit := at_end rest; failbit := f |} in
    if negb seen then (0, st true)
    else if (v <? Int.INT_MIN)%Z then (Int.INT_MIN, st true)
    else if (Int.INT_MAX <? v)%Z then (Int.INT_MAX, st true)
    else (v, st false)
  else (val, s1).

(** Strings of white space, strings that end a run of digits, and decimal
    numbers with at least one digit. *)
Definition all_space (s : string) : Prop :=
  forall c, In c (list_ascii_of_string s) -> isspace c = true.

Definition stops_digits (s : string) : Prop :=
  match s with
  | EmptyString => True
  | String c _ => isdigit c = false
  end.

Definition nonnil (d : uint) : bool :=
  match d with Nil => false | _ => true end.

End Istream.

(* ================================================================== *)
(** * counts_probability.cc *)

Module CountsProbability.

Import Istream.

(** The locals of [main] that the loop reads or writes. *)
Record vars : Type := mkvars {
  probability : float;
  probabilities : list float;
  index : Z;
  has_mutation_total : Z;
  has_no_mutation_total : Z;
  total_trios : Z
}.

Definition init : vars :=
  {| probability := 0%float; probabilities := [];
     index := 0; has_mutation_total := 0; has_no_mutation_total := 0;
     total_trios := 0 |}.

Definition newline : ascii := "010"%char.

(** The characters before the first newline, and what follows it. *)
Fixpoint until_newline (s : string) : string * string :=
  match s with
  | EmptyString => (EmptyString, EmptyString)
  | String c r =>
      if Ascii.eqb c newline then (EmptyString, r)
      else let (l, rest) := until_newline r in (String c l, rest)
  end.

(** [getline(fin, line)]: fails exactly when nothing is left to read. *)
Definition getline (fin : string) : option (string * string) :=
  match fin with
  | EmptyString => None
  | _ => Some (until_newline fin)
  end.

(** [line.erase(remove(line.begin(), line.end(), '\n'), line.end())]. *)
Fixpoint remove_newlines (s : string) : string :=
  match s with
  | EmptyString => EmptyString
  | String c r =>
      if Ascii.eqb c newline then remove_newlines r
      else String c (remove_newlines r)
  end.

Definition ratio (m total : Z) : float :=
  if total =? 0 then 0%float
  else (Int.to_double m / Int.to_double total)%float.

(** The body of the [while] loop, lines 57 to 68. *)
Definition body (line : string) (v : vars) : vars :=
  let str := open (remove_newlines line) in
  let (index', str) := get_int str (index v) in
  let (has_mutation', str) := get_int str (has_mutation_total v) in
  let (has_no_mutation', str) := get_int str (has_no_mutation_total v) in
  let total := Int.add has_mutation' has_no_mutation' in
  let p := ratio has_mutation' total in
  {| probability := p; probabilities := probabilities v ++ [p];
     index := index'; has_mutation_total := has_mutation';
     has_no_mutation_total := has_no_mutation'; total_trios := total |}.

(** [while (getline(fin, line)) { ... }]; [None] is fuel run out. *)
Fixpoint read_loop (fuel : nat) (fin : string) (v : vars) : option vars :=
  match fuel with
  | O => None
  | S k =>
      match getline fin with
      | None => Some v
      | Some (line, rest) => read_loop k rest (body line v)
      end
  end.

(** [main] from the opened input to the values that
    [copy(..., ostream_iterator<double>(fout, "\n"))] writes, one per
    output line. *)
Definition main (fin : string) : option (list float) :=
  option_map probabilities (read_loop (S (String.length fin)) fin init).

(** The lines that successive [getline] calls deliver. *)
Fixpoint getlines (fin : string) : list string :=
  match fin with
  | EmptyString => []
  | String c r =>
      if Ascii.eqb c newline then EmptyString :: getlines r
      else match getlines r with
           | [] => [String c EmptyString]
           | l :: ls => String c l :: ls
           end
  end.

(** Decimal text of a count, and a three-column row. *)
Definition dec (z : Z) : string := NilEmpty.string_of_uint (N.to_uint (Z.to_N z)).

Definition is_sep (c : ascii) : bool := isspace c && negb (Ascii.eqb c newline).

Fixpoint separator (s : string) : bool :=
  match s with
  | EmptyString => false
  | String c EmptyString => is_sep c
  | String c r => is_sep c && separator r
  end.

Definition row (sep1 sep2 : string) (idx m n : Z) : string :=
  (dec idx ++ sep1 ++ dec m ++ sep2 ++ dec n)%string.

(** The values pushed while the lines [ls] are read from the state [v],
    and the state in which line [i] of the file is read. *)
Fixpoint emitted (ls : list string) (v : vars) : list float :=
  match ls with
  | [] => []
  | l :: r => probability (body l v) :: emitted r (body l v)
  end.

Definition state_before (fin : string) (i : nat) : vars :=
  fold_left (fun v l => body l v) (firstn i (getlines fin)) init.

(** Whether some extraction of the three fails on [line]. *)
Definition parse_fails (line : string) : bool :=
  let str := open (remove_newlines line) in
  let (_, str) := get_int str 0 in
  let (_, str) := get_int str 0 in
  let (_, str) := get_int str 0 in
  failbit str.

(** Whether the first extraction already fails on [line]. *)
Definition first_field_fails (line : string) : bool :=
  failbit (snd (get_int (open (remove_newlines line)) 0)).

(** The probability in scope is always the ratio of the counts in scope. *)
Definition ratio_kept (v : vars) : Prop :=
  probability v
  = ratio (has_mutation_total v)
          (Int.add (has_mutation_total v) (has_no_mutation_total v)).

(** The simulation counts file with the rows (0, 10, 90) and (1, 0, 0),
    and a file whose second line holds no number. *)
Definition simulation_example : string :=
  (row " " " " 0 10 90 ++ String newline (row " " " " 1 0 0 ++ String newline ""))%string.

Definition stale_example : string :=
  (row " " " " 0 10 90 ++ String newline ("abc" ++ String newline ""))%string.

End CountsProbability.


(* ================================================================== *)
(** * bam_driver.cc: the expectation-maximization loop *)

Module EM.

(** What [main] uses of sufficient_statistics.h, trio_model.h and
    utility.h. [Update] receives the model by reference and both
    [SufficientStatistics] methods are non-const, so each returns the
    objects it may have changed. *)
Class Interface : Type := {
  TrioModel : Type;
  TrioVector : Type;
  SufficientStatistics : Type;
  sequencing_error_rate : TrioModel -> float;
  set_sequencing_error_rate : float -> TrioModel -> TrioModel;
  Update : TrioModel -> TrioVector -> SufficientStatistics ->
           TrioModel * SufficientStatistics;
  Clear : SufficientStatistics -> SufficientStatistics;
  MaxSequencingErrorRate : SufficientStatistics -> float * SufficientStatistics;
  Equal : float -> float -> bool
}.

(** The calls the driver makes, in the order it makes them. *)
Inductive call : Type :=
| CallUpdate
| CallMaxSequencingErrorRate (result : float)
| CallEqual (current candidate : float) (result : bool)
| CallSetSequencingErrorRate (rate : float)
| CallClear.

Section Driver.

Context {I : Interface}.
Variable sites : TrioVector.

(** The objects and locals of [main] from line 70 on, with the calls made
    so far. *)
Record vars : Type := mkvars {
  params : TrioModel;
  stats : SufficientStatistics;
  maximized : float;
  count : Z;
  calls : list call
}.

(** [stats.Update(params, sites)]. *)
Definition do_update (w : vars) : vars :=
  let (p, s) := Update (params w) sites (stats w) in
  {| params := p; stats := s; maximized := maximized w; count := count w;
     calls := calls w ++ [CallUpdate] |}.

(** [maximized = stats.MaxSequencingErrorRate()]. *)
Definition do_max (w : vars) : vars :=
  let (m, s) := MaxSequencingErrorRate (stats w) in
  {| params := params w; stats := s; maximized := m; count := count w;
     calls := calls w ++ [CallMaxSequencingErrorRate m] |}.

(** [params.set_sequencing_error_rate(maximized)]. *)
Definition do_set (w : vars) : vars :=
  {| params := set_sequencing_error_rate (maximized w) (params w);
     stats := stats w; maximized := maximized w; count := count w;
     calls := calls w ++ [CallSetSequencingErrorRate (maximized w)] |}.

(** [stats.Clear()]. *)
Definition do_clear (w : vars) : vars :=
  {| params := params w; stats := Clear (stats w); maximized := maximized w;
     count := count w; calls := calls w ++ [CallClear] |}.

(** [count++]. *)
Definition do_count (w : vars) : vars :=
  {| params := params w; stats := stats w; maximized := maximized w;
     count := Int.add (count w) 1; calls := calls w |}.

(** The loop condition of line 77 without its negation:
    [Equal(params.sequencing_error_rate(), maximized)]. *)
Definition converged (w : vars) : bool :=
  Equal (sequencing_error_rate (params w)) (maximized w).

Definition do_test (w : vars) : vars :=
  {| params := params w; stats := stats w; maximized := maximized w;
     count := count w;
     calls := calls w ++ [CallEqual (sequencing_error_rate (params w))
                                    (maximized w) (converged w)] |}.

(** Lines 78 to 82. *)
Definition loop_body (w : vars) : vars :=
  do_count (do_max (do_update (do_clear (do_set w)))).

(** The [while] of lines 77 to 83; [None] is fuel run out with the loop
    still running. *)
Fixpoint em_loop (fuel : nat) (w : vars) : option vars :=
  match fuel with
  | O => None
  | S k =>
      if converged w then Some (do_test w)
      else em_loop k (loop_body (do_test w))
  end.

(** Lines 71 to 76: the state in which the loop is first entered. *)
Definition first_head (p : TrioModel) (s : SufficientStatistics) : vars :=
  do_max (do_update {| params := p; stats := s; maximized := 0%float;
                       count := 0; calls := [] |}).

(** Lines 71 to 83. *)
Definition em (fuel : nat) (p : TrioModel) (s : SufficientStatistics)
  : option vars :=
  em_loop fuel (first_head p s).

(** The state at the head of the loop after [k] full iterations, were the
    loop to run that long. *)
Fixpoint loop_head (k : nat) (w : vars) : vars :=
  match k with
  | O => w
  | S j => loop_head j (loop_body (do_test w))
  end.

(** ** The state machine of the specification

    States Init, E-Step, M-Step and Converged. E-Step calls [Update];
    M-Step computes the candidate with [MaxSequencingErrorRate]; when the
    candidate equals the model's rate the machine moves to Converged and
    stops; otherwise the candidate is installed, the accumulator is cleared
    and the machine is back at E-Step. *)
Inductive phase : Type := Init | EStep | MStep | Converged.

Record machine : Type := mkmachine {
  at_phase : phase;
  model : TrioModel;
  accumulator : SufficientStatistics;
  trace : list call
}.

Definition machine_step (m : machine) : machine :=
  match at_phase m with
  | Init =>
      {| at_phase := EStep; model := model m; accumulator := accumulator m;
         trace := trace m |}
  | EStep =>
      let (p, s) := Update (model m) sites (accumulator m) in
      {| at_phase := MStep; model := p; accumulator := s;
         trace := trace m ++ [CallUpdate] |}
  | MStep =>
      let (candidate, s) := MaxSequencingErrorRate (accumulator m) in
      let current := sequencing_error_rate (model m) in
      if Equal current candidate then
        {| at_phase := Converged; model := model m; accumulator := s;
           trace := trace m ++ [CallMaxSequencingErrorRate candidate;
                                CallEqual current candidate true] |}
      else
        {| at_phase := EStep;
           model := set_sequencing_error_rate candidate (model m);
           accumulator := Clear s;
           trace := trace m ++ [CallMaxSequencingErrorRate candidate;
                                CallEqual current candidate false;
                                CallSetSequencingErrorRate candidate;
                                CallClear] |}
  | Converged => m
  end.

Fixpoint machine_run (n : nat) (m : machine) : machine :=
  match n with
  | O => m
  | S k => machine_run k (machine_step m)
  end.

Definition machine_init (p : TrioModel) (s : SufficientStatistics) : machine :=
  {| at_phase := Init; model := p; accumulator := s; trace := [] |}.

(** What the machine sees of the driver's variables. *)
Definition view (ph : phase) (w : vars) : machine :=
  {| at_phase := ph; model := params w; accumulator := stats w;
     trace := calls w |}.

(** The loop head [h] stands for the machine at M-Step in [m]: the
    candidate of [h] is the one M-Step is about to compute. *)
Definition at_head (h : vars) (m : machine) : Prop :=
  at_phase m = MStep /\
  model m = params h /\
  MaxSequencingErrorRate (accumulator m) = (maximized h, stats h) /\
  calls h = trace m ++ [CallMaxSequencingErrorRate (maximized h)].

End Driver.

(** A toy instance on which the loop can be run: the model is its rate,
    the statistic halves the rate it was updated with, and two rates are
    equal when they differ by less than 2^-52. *)
Definition halving : Interface :=
  {| TrioModel := float;
     TrioVector := unit;
     SufficientStatistics := float;
     sequencing_error_rate := fun p => p;
     set_sequencing_error_rate := fun r _ => r;
     Update := fun p _ _ => (p, p);
     Clear := fun _ => 0%float;
     MaxSequencingErrorRate := fun s => ((s / 2)%float, s);
     Equal := fun a b => (PrimFloat.abs (a - b) <? 0x1p-52)%float |}.

(** The same instance with a comparison that never holds. *)
Definition restless : Interface :=
  {| TrioModel := float;
     TrioVector := unit;
     SufficientStatistics := float;
     sequencing_error_rate := fun p => p;
     set_sequencing_error_rate := fun r _ => r;
     Update := fun p _ _ => (p, p);
     Clear := fun _ => 0%float;
     MaxSequencingErrorRate := fun s => ((s / 2)%float, s);
     Equal := fun _ _ => false |}.

End EM.

(* ================================================================== *)
(** * trio_model.h: the class [TrioModel]

    The members are those of the header. The bodies of the member
    functions are in trio_model.cc and utility.cc, and the type
    [ReadDependentData] is declared in read_dependent_data: the builders of
    the rate-dependent members and that type are parameters, and the
    constructor and [Equals] are modelled from the specification. *)

Module Trio.

Local Open Scope float_scope.

Record RowVector4d : Type := mkrow4 {
  at_A : float; at_C : float; at_G : float; at_T : float
}.

Definition RowVector16d : Type := list float.
Definition RowVector256d : Type := list float.
Definition Matrix4_16d : Type := list (list float).
Definition Matrix16_256d : Type := list (list float).
Definition Matrix16_16d : Type := list (list float).
Definition Matrix16_4d : Type := list RowVector4d.

(** What is neither in the header nor in the specification: the tolerance
    of [Equal], the type of [read_dependent_data_] (the header says it
    contains the tree peels) with the value a new model holds, and the
    builders of the rate-dependent members.
    [GermlineMutationProbabilities] gives [homozygous_match_],
    [heterozygous_match_] and [no_match_], which
    [SetGermlineMutationProbabilities] sets; [Alphas] is handed the
    sequencing error rate and the dispersion, whether or not it reads the
    latter. *)
Class Layers : Type := {
  epsilon : float;
  ReadDependentData : Type;
  ReadDependentData_new : ReadDependentData;
  Alphas : float -> float -> Matrix16_4d;
  PopulationPriorsSingle : float -> RowVector4d -> RowVector16d;
  PopulationPriors : float -> RowVector4d -> RowVector256d;
  GermlineMutationProbabilities : float -> float * float * float;
  GermlineProbabilityMatSingle : float -> bool -> Matrix4_16d;
  GermlineProbabilityMat : float -> bool -> Matrix16_256d;
  GermlineProbabilityMatNum : float -> Matrix16_256d;
  SomaticProbabilityMat : float -> Matrix16_16d;
  SomaticProbabilityMatDiag : float -> Matrix16_16d
}.

Section Model.

Context {L : Layers}.

Record TrioModel : Type := mkmodel {
  population_mutation_rate_ : float;
  homozygous_match_ : float;
  heterozygous_match_ : float;
  no_match_ : float;
  germline_mutation_rate_ : float;
  somatic_mutation_rate_ : float;
  sequencing_error_rate_ : float;
  dirichlet_dispersion_ : float;
  nucleotide_frequencies_ : RowVector4d;
  alphas_ : Matrix16_4d;
  population_priors_single_ : RowVector16d;
  population_priors_ : RowVector256d;
  germline_probability_mat_single_ : Matrix4_16d;
  germline_probability_mat_ : Matrix16_256d;
  germline_probability_mat_num_ : Matrix16_256d;
  somatic_probability_mat_ : Matrix16_16d;
  somatic_probability_mat_diag_ : Matrix16_16d;
  read_dependent_data_ : ReadDependentData
}.

(** Modelled from the spec: utility.cc is missing. Two doubles are equal
    when they differ by less than the tolerance. *)
Definition Equal (a b : float) : bool := PrimFloat.abs (a - b) <? epsilon.

Definition EqualRow (u v : RowVector4d) : bool :=
  Equal (at_A u) (at_A v) && Equal (at_C u) (at_C v) &&
  Equal (at_G u) (at_G v) && Equal (at_T u) (at_T v).

(** Modelled from the spec: the constructor's body is missing.
    Construction stores the six parameters and eagerly builds every
    rate-dependent matrix; the read-dependent data are those of a new
    object. *)
Definition TrioModel_new
    (population_mutation_rate germline_mutation_rate somatic_mutation_rate
     sequencing_error_rate dirichlet_dispersion : float)
    (nucleotide_frequencies : RowVector4d) : TrioModel :=
  {| population_mutation_rate_ := population_mutation_rate;
     homozygous_match_ := fst (fst (GermlineMutationProbabilities germline_mutation_rate));
     heterozygous_match_ := snd (fst (GermlineMutationProbabilities germline_mutation_rate));
     no_match_ := snd (GermlineMutationProbabilities germline_mutation_rate);
     germline_mutation_rate_ := germline_mutation_rate;
     somatic_mutation_rate_ := somatic_mutation_rate;
     sequencing_error_rate_ := sequencing_error_rate;
     dirichlet_dispersion_ := dirichlet_dispersion;
     nucleotide_frequencies_ := nucleotide_frequencies;
     alphas_ := Alphas sequencing_error_rate dirichlet_dispersion;
     population_priors_single_ :=
       PopulationPriorsSingle population_mutation_rate nucleotide_frequencies;
     population_priors_ :=
       PopulationPriors population_mutation_rate nucleotide_frequencies;
     germline_probability_mat_single_ :=
       GermlineProbabilityMatSingle germline_mutation_rate false;
     germline_probability_mat_ :=
       GermlineProbabilityMat germline_mutation_rate false;
     germline_probability_mat_num_ :=
       GermlineProbabilityMatNum germline_mutation_rate;
     somatic_probability_mat_ := SomaticProbabilityMat somatic_mutation_rate;
     somatic_probability_mat_diag_ :=
       SomaticProbabilityMatDiag somatic_mutation_rate;
     read_dependent_data_ := ReadDependentData_new |}.

(** Modelled from the spec: the body of [Equals] is missing. Structural
    equality of all parameters within floating tolerance. *)
Definition Equals (a b : TrioModel) : bool :=
  Equal (population_mutation_rate_ a) (population_mutation_rate_ b) &&
  Equal (germline_mutation_rate_ a) (germline_mutation_rate_ b) &&
  Equal (somatic_mutation_rate_ a) (somatic_mutation_rate_ b) &&
  Equal (sequencing_error_rate_ a) (sequencing_error_rate_ b) &&
  Equal (dirichlet_dispersion_ a) (dirichlet_dispersion_ b) &&
  EqualRow (nucleotide_frequencies_ a) (nucleotide_frequencies_ b).

Definition finite_row (v : RowVector4d) : bool :=
  PrimFloat.is_finite (at_A v) && PrimFloat.is_finite (at_C v) &&
  PrimFloat.is_finite (at_G v) && PrimFloat.is_finite (at_T v).

End Model.

(** An instance to run the model on: one genotype, and nothing kept of
    the reads. *)
Definition small : Layers :=
  {| epsilon := 0x1p-52;
     ReadDependentData := unit;
     ReadDependentData_new := tt;
     Alphas := fun e d => [ {| at_A := d * (1 - e); at_C := d * e;
                               at_G := d * e; at_T := d * e |} ];
     PopulationPriorsSingle := fun _ _ => [1];
     PopulationPriors := fun _ _ => [1];
     GermlineMutationProbabilities := fun r => (1 - r, 0.5, r);
     GermlineProbabilityMatSingle := fun _ _ => [[1]];
     GermlineProbabilityMat := fun _ _ => [[1]];
     GermlineProbabilityMatNum := fun r => [[r]];
     SomaticProbabilityMat := fun _ => [[1]];
     SomaticProbabilityMatDiag := fun _ => [[1]] |}.

Definition quarter : RowVector4d :=
  {| at_A := 0.25; at_C := 0.25; at_G := 0.25; at_T := 0.25 |}.

End Trio.

(* ================================================================== *)
(** * counts_probability.cc: texts of lines and files *)

Module CountsText.

Import Istream CountsProbability.
Local Open Scope string_scope.

(** Decimal text of an [int] of either sign. *)
Definition sdec (z : Z) : string :=
  if (z <? 0)%Z then String "-" (dec (- z)%Z) else dec z.

(** A line of three numbers of either sign. *)
Definition srow (sep1 sep2 : string) (idx m n : Z) : string :=
  sdec idx ++ sep1 ++ sdec m ++ sep2 ++ sdec n.

(** A line that stops after its second number, white space apart. *)
Definition short_row (sep1 trailing : string) (idx m : Z) : string :=
  sdec idx ++ sep1 ++ sdec m ++ trailing.

Fixpoint blank (s : string) : bool :=
  match s with
  | EmptyString => true
  | String c r => is_sep c && blank r
  end.

(** A text that cannot start a number: its first character is neither white
    space, nor a sign, nor a digit. *)
Definition starts_no_number (s : string) : bool :=
  match s with
  | EmptyString => false
  | String c _ =>
      negb (isspace c || isdigit c || Ascii.eqb c "-" || Ascii.eqb c "+")
  end.

Fixpoint no_newline (s : string) : bool :=
  match s with
  | EmptyString => true
  | String c r => negb (Ascii.eqb c newline) && no_newline r
  end.

Fixpoint ends_with_newline (s : string) : bool :=
  match s with
  | EmptyString => false
  | String c EmptyString => Ascii.eqb c newline
  | String _ r => ends_with_newline r
  end.

(** The file that holds the lines [ls], each closed by a newline. *)
Fixpoint unlines (ls : list string) : string :=
  match ls with
  | [] => EmptyString
  | l :: r => l ++ String newline (unlines r)
  end.

(** A row as a file would hold it: the separators and the three numbers. *)
Record counts_row : Type := mkrow {
  row_sep1 : string;
  row_sep2 : string;
  row_index : Z;
  row_with : Z;
  row_without : Z
}.

Definition row_text (r : counts_row) : string :=
  srow (row_sep1 r) (row_sep2 r) (row_index r) (row_with r) (row_without r).

Definition valid_row (r : counts_row) : Prop :=
  separator (row_sep1 r) = true /\ separator (row_sep2 r) = true /\
  Int.in_range (row_index r) /\ Int.in_range (row_with r) /\
  Int.in_range (row_without r).

(** The probability the loop computes from two counts. *)
Definition empirical (m n : Z) : float := ratio m (Int.add m n).

End CountsText.

(* ================================================================== *)
(** * bam_driver.cc: the shape of the calls *)

Module EMTrace.

Import EM.

(** A call without its arguments and result. *)
Inductive kind : Type := KUpdate | KMax | KEqual | KSet | KClear.

Definition kind_of (c : call) : kind :=
  match c with
  | CallUpdate => KUpdate
  | CallMaxSequencingErrorRate _ => KMax
  | CallEqual _ _ _ => KEqual
  | CallSetSequencingErrorRate _ => KSet
  | CallClear => KClear
  end.

(** The calls of one turn of the loop, from its test to the end of its
    body, and the calls of a run that leaves the loop after [k] turns. *)
Definition turn : list kind := [KEqual; KSet; KClear; KUpdate; KMax].

Definition run_shape (k : nat) : list kind :=
  [KUpdate; KMax] ++ List.concat (repeat turn k) ++ [KEqual].

End EMTrace.

(* ================================================================== *)
(** * Facts: machine integers *)

Lemma wrap_in_range (z : Z) : Int.in_range z -> Int.wrap z = z.
Proof.
  unfold Int.in_range, Int.wrap, Int.INT_MIN, Int.INT_MAX. intros H.
  rewrite Z.mod_small by lia. lia.
Qed.

(* ================================================================== *)
(** * Facts: extraction of an [int] *)

Module IstreamFacts.

Import Istream.
Local Open Scope string_scope.

Lemma append_empty_r (a : string) : a ++ "" = a.
Proof. induction a as [|x a IH]; simpl; [reflexivity | now rewrite IH]. Qed.

(** Once the stream is not [good], an extraction stores nothing. *)
Lemma get_int_not_good (s : stream) (val : Z) :
  good s = false ->
  get_int s val = (val, {| buf := buf s; eofbit := eofbit s; failbit := true |}).
Proof.
  intros H. unfold get_int, sentry. rewrite H. reflexivity.
Qed.

Lemma get_int_failed (s : stream) (val : Z) :
  failbit s = true ->
  fst (get_int s val) = val /\ failbit (snd (get_int s val)) = true.
Proof.
  intros H. rewrite get_int_not_good.
  - split; reflexivity.
  - unfold good. rewrite H. apply andb_false_r.
Qed.

Lemma skipws_app (ws rest : string) :
  all_space ws -> skipws (ws ++ rest) = skipws rest.
Proof.
  induction ws as [|c ws IH]; intros H; simpl.
  - reflexivity.
  - rewrite (H c) by (simpl; auto). apply IH.
    intros x Hx. apply H. simpl. auto.
Qed.

Ltac digit_step IH :=
  cbn [NilEmpty.string_of_uint String.append digits isdigit Pos.of_uint_acc
       Pos.of_uint nonnil Z.of_N];
  match goal with
  | |- digits _ (_ + digit_value ?c) true = (Z.pos (Pos.of_uint_acc _ ?q), _, _) =>
      let v := eval vm_compute in (digit_value c) in
      change (digit_value c) with v;
      match goal with
      | |- digits _ ?a true = _ => replace a with (Z.pos q) by lia
      end;
      rewrite IH by assumption; now rewrite orb_true_r
  end.

Lemma digits_acc_pos (d : uint) :
  forall (p : positive) (seen : bool) (rest : string),
    stops_digits rest ->
    digits (NilEmpty.string_of_uint d ++ rest) (Z.pos p) seen
    = (Z.pos (Pos.of_uint_acc d p), seen || nonnil d, rest).
Proof.
  induction d; intros p seen rest Hrest; try digit_step IHd.
  cbn [NilEmpty.string_of_uint String.append Pos.of_uint_acc nonnil].
  rewrite orb_false_r.
  destruct rest as [|c r]; cbn [digits]; [reflexivity|].
  cbn [stops_digits] in Hrest. now rewrite Hrest.
Qed.

Lemma digits_acc_zero (d : uint) :
  forall (seen : bool) (rest : string),
    stops_digits rest ->
    digits (NilEmpty.string_of_uint d ++ rest) 0 seen
    = (Z.of_N (Pos.of_uint d), seen || nonnil d, rest).
Proof.
  induction d; intros seen rest Hrest; try digit_step digits_acc_pos.
  - cbn [NilEmpty.string_of_uint String.append Pos.of_uint nonnil Z.of_N].
    rewrite orb_false_r.
    destruct rest as [|c r]; cbn [digits]; [reflexivity|].
    cbn [stops_digits] in Hrest. now rewrite Hrest.
  - cbn [NilEmpty.string_of_uint String.append digits isdigit Pos.of_uint nonnil].
    change (10 * 0 + digit_value "0") with 0.
    rewrite IHd by assumption. now rewrite orb_true_r.
Qed.

Lemma digit_not_space (c : ascii) : isdigit c = true -> isspace c = false.
Proof.
  destruct c as [[] [] [] [] [] [] [] []]; cbn; intros H;
    first [reflexivity | discriminate H].
Qed.

Lemma space_not_digit (c : ascii) : isspace c = true -> isdigit c = false.
Proof.
  destruct (isdigit c) eqn:E; [|reflexivity].
  rewrite (digit_not_space c E). discriminate.
Qed.

Lemma sign_digit (c : ascii) (r : string) :
  isdigit c = true -> sign (String c r) = (false, String c r).
Proof.
  destruct c as [[] [] [] [] [] [] [] []]; cbn; intros H;
    first [reflexivity | discriminate H].
Qed.

Lemma decimal_head (d : uint) :
  nonnil d = true ->
  exists c r, NilEmpty.string_of_uint d = String c r /\ isdigit c = true.
Proof.
  destruct d; cbn; intros H; try discriminate H;
    eexists; eexists; split; reflexivity.
Qed.

Lemma to_uint_nonnil (n : N) : nonnil (N.to_uint n) = true.
Proof.
  destruct n as [|p]; [reflexivity|].
  cbn [N.to_uint]. pose proof (DecimalPos.Unsigned.to_uint_nonnil p) as H.
  destruct (Pos.to_uint p); [contradiction | reflexivity ..].
Qed.

(** The extraction on a few fields: a signed number, a field that is no
    number, a number too large for an [int], and a stream at its end. *)
Example get_int_cases :
  get_int (open "  -12 7") 5
  = (-12, {| buf := " 7"; eofbit := false; failbit := false |}) /\
  get_int (open "x1") 5
  = (0, {| buf := "x1"; eofbit := false; failbit := true |}) /\
  get_int (open "99999999999") 5
  = (Int.INT_MAX, {| buf := ""; eofbit := true; failbit := true |}) /\
  get_int {| buf := ""; eofbit := true; failbit := false |} 5
  = (5, {| buf := ""; eofbit := true; failbit := true |}) /\
  get_int (open "   ") 5
  = (5, {| buf := ""; eofbit := true; failbit := true |}).
Proof. repeat split; reflexivity. Qed.

(** Extraction of a decimal field that fits an [int]: the value is stored
    and the stream stays usable, with [eofbit] exactly at the end. *)
Lemma get_int_field (ws rest : string) (n : N) (val : Z) :
  all_space ws -> stops_digits rest -> (Z.of_N n <= Int.INT_MAX)%Z ->
  get_int {| buf := ws ++ NilEmpty.string_of_uint (N.to_uint n) ++ rest;
             eofbit := false; failbit := false |} val
  = (Z.of_N n, {| buf := rest; eofbit := at_end rest; failbit := false |}).
Proof.
  intros Hws Hrest Hmax.
  destruct (decimal_head (N.to_uint n) (to_uint_nonnil n)) as (c & r & Hd & Hc).
  unfold get_int, sentry. cbn [good eofbit failbit negb andb buf].
  rewrite skipws_app by assumption.
  pose proof (digits_acc_zero (N.to_uint n) false rest Hrest) as Hdig.
  rewrite Hd in *. cbn [String.append] in *.
  cbn [skipws]. rewrite (digit_not_space c Hc). cbn [buf].
  rewrite (sign_digit c _ Hc). rewrite Hdig.
  rewrite to_uint_nonnil. cbn [orb negb].
  change (Pos.of_uint (N.to_uint n)) with (N.of_uint (N.to_uint n)).
  rewrite DecimalN.Unsigned.of_to.
  destruct (Z.ltb_spec (Z.of_N n) Int.INT_MIN) as [Hlt|_].
  - unfold Int.INT_MIN in Hlt. lia.
  - destruct (Z.ltb_spec Int.INT_MAX (Z.of_N n)) as [Hgt|_]; [lia | reflexivity].
Qed.

Lemma get_int_field_here (rest : string) (n : N) (val : Z) :
  stops_digits rest -> (Z.of_N n <= Int.INT_MAX)%Z ->
  get_int {| buf := NilEmpty.string_of_uint (N.to_uint n) ++ rest;
             eofbit := false; failbit := false |} val
  = (Z.of_N n, {| buf := rest; eofbit := at_end rest; failbit := false |}).
Proof.
  intros Hrest Hmax.
  apply (get_int_field "" rest n val); [intros c [] | assumption ..].
Qed.

End IstreamFacts.

(* ================================================================== *)
(** * Facts: the line loop of counts_probability.cc *)

Module CountsProbabilityFacts.

Import Istream IstreamFacts CountsProbability.
Local Open Scope string_scope.

Lemma remove_newlines_app (a b : string) :
  remove_newlines (a ++ b) = remove_newlines a ++ remove_newlines b.
Proof.
  induction a as [|c a IH]; cbn [String.append remove_newlines].
  - reflexivity.
  - destruct (Ascii.eqb c newline); [exact IH | cbn; now rewrite IH].
Qed.

Lemma remove_newlines_decimal (d : uint) :
  remove_newlines (NilEmpty.string_of_uint d) = NilEmpty.string_of_uint d.
Proof.
  induction d; cbn [NilEmpty.string_of_uint remove_newlines];
    [reflexivity | cbn [Ascii.eqb newline Bool.eqb]; now rewrite IHd ..].
Qed.

Lemma separator_cons (c : ascii) (r : string) :
  separator (String c r) = true ->
  is_sep c = true /\ (r = "" \/ separator r = true).
Proof.
  cbn [separator]. destruct r as [|c' r'].
  - intros H. split; [exact H | now left].
  - intros H. apply andb_true_iff in H. destruct H as [H1 H2].
    split; [exact H1 | now right].
Qed.

Lemma remove_newlines_separator (s : string) :
  separator s = true -> remove_newlines s = s.
Proof.
  induction s as [|c r IH]; [discriminate|].
  intros H. apply separator_cons in H. destruct H as [Hc Hr].
  cbn [remove_newlines]. unfold is_sep in Hc.
  apply andb_true_iff in Hc. destruct Hc as [_ Hn].
  apply negb_true_iff in Hn. rewrite Hn. f_equal.
  destruct Hr as [-> | Hr]; [reflexivity | now apply IH].
Qed.

Lemma separator_all_space (s : string) : separator s = true -> all_space s.
Proof.
  induction s as [|c r IH]; [discriminate|].
  intros H x Hx. apply separator_cons in H. destruct H as [Hc Hr].
  cbn in Hx. destruct Hx as [<- | Hx].
  - unfold is_sep in Hc. now apply andb_true_iff in Hc.
  - destruct Hr as [-> | Hr]; [destruct Hx | now apply IH].
Qed.

Lemma separator_stops (s rest : string) :
  separator s = true -> stops_digits (s ++ rest) /\ at_end (s ++ rest) = false.
Proof.
  destruct s as [|c r]; [discriminate|].
  intros H. apply separator_cons in H. destruct H as [Hc _].
  cbn. split; [|reflexivity].
  apply space_not_digit. unfold is_sep in Hc. now apply andb_true_iff in Hc.
Qed.

Lemma remove_newlines_row (sep1 sep2 : string) (idx m n : Z) :
  separator sep1 = true -> separator sep2 = true ->
  remove_newlines (row sep1 sep2 idx m n) = row sep1 sep2 idx m n.
Proof.
  intros H1 H2. unfold row, dec.
  rewrite !remove_newlines_app, !remove_newlines_decimal.
  now rewrite !remove_newlines_separator.
Qed.

(** What the loop body leaves after a well-formed row, whatever the
    previous lines left in the variables. *)
Lemma body_row (v : vars) (sep1 sep2 : string) (idx m n : Z) :
  (0 <= idx <= Int.INT_MAX)%Z -> (0 <= m)%Z -> (0 <= n)%Z ->
  (m + n <= Int.INT_MAX)%Z ->
  separator sep1 = true -> separator sep2 = true ->
  body (row sep1 sep2 idx m n) v
  = {| probability := ratio m (m + n);
       probabilities := probabilities v ++ [ratio m (m + n)];
       index := idx; has_mutation_total := m;
       has_no_mutation_total := n; total_trios := (m + n)%Z |}.
Proof.
  intros Hidx Hm Hn Hsum H1 H2. unfold body.
  rewrite remove_newlines_row by assumption.
  unfold row, dec, open.
  destruct (separator_stops sep1
              (NilEmpty.string_of_uint (N.to_uint (Z.to_N m)) ++ sep2 ++
               NilEmpty.string_of_uint (N.to_uint (Z.to_N n))) H1) as [Hs1 He1].
  destruct (separator_stops sep2
              (NilEmpty.string_of_uint (N.to_uint (Z.to_N n))) H2) as [Hs2 He2].
  rewrite (get_int_field_here _ (Z.to_N idx) (index v));
    [ | exact Hs1 | rewrite Z2N.id; lia ].
  rewrite He1.
  rewrite (get_int_field sep1 _ (Z.to_N m) (has_mutation_total v));
    [ | now apply separator_all_space | exact Hs2 | rewrite Z2N.id; lia ].
  rewrite He2.
  rewrite <- (append_empty_r (NilEmpty.string_of_uint (N.to_uint (Z.to_N n)))).
  rewrite (get_int_field sep2 "" (Z.to_N n) (has_no_mutation_total v));
    [ | now apply separator_all_space | exact I | rewrite Z2N.id; lia ].
  rewrite !Z2N.id by lia.
  unfold Int.add. rewrite wrap_in_range
    by (unfold Int.in_range, Int.INT_MIN, Int.INT_MAX in *; lia).
  reflexivity.
Qed.

(** ** The loop over the file *)

Lemma until_newline_getlines (s : string) :
  s <> "" ->
  getlines s = fst (until_newline s) :: getlines (snd (until_newline s))
  /\ (String.length (snd (until_newline s)) < String.length s)%nat.
Proof.
  induction s as [|c r IH]; intros Hne; [contradiction|].
  cbn [until_newline getlines String.length].
  destruct (Ascii.eqb c newline).
  - cbn [fst snd]. split; [reflexivity | lia].
  - destruct r as [|c' r'].
    + cbn. split; [reflexivity | lia].
    + destruct IH as [Hl Hn]; [discriminate|].
      rewrite Hl. destruct (until_newline (String c' r')) as [l rest].
      cbn [fst snd] in *. split; [reflexivity | lia].
Qed.

Lemma read_loop_fold (fuel : nat) :
  forall (fin : string) (v : vars),
    (String.length fin < fuel)%nat ->
    read_loop fuel fin v
    = Some (fold_left (fun v l => body l v) (getlines fin) v).
Proof.
  induction fuel as [|k IH]; intros fin v Hlen; [lia|].
  destruct fin as [|c r]; [reflexivity|].
  cbn [read_loop getline].
  destruct (until_newline_getlines (String c r)) as [Hl Hn]; [discriminate|].
  rewrite Hl. destruct (until_newline (String c r)) as [line rest].
  cbn [fst snd fold_left] in *. apply IH. lia.
Qed.

Lemma probabilities_body (l : string) (v : vars) :
  probabilities (body l v) = (probabilities v ++ [probability (body l v)])%list.
Proof.
  unfold body.
  destruct (get_int _ (index v)) as [i s1].
  destruct (get_int s1 _) as [m s2]. destruct (get_int s2 _) as [n s3].
  reflexivity.
Qed.

Lemma probabilities_fold (ls : list string) :
  forall v,
    probabilities (fold_left (fun v l => body l v) ls v)
    = (probabilities v ++ emitted ls v)%list.
Proof.
  induction ls as [|l ls IH]; intros v; cbn [fold_left emitted].
  - now rewrite app_nil_r.
  - rewrite IH, probabilities_body, <- app_assoc. reflexivity.
Qed.

(** [main] always returns, with the values pushed line by line. *)
Lemma main_emitted (fin : string) :
  main fin = Some (emitted (getlines fin) init).
Proof.
  unfold main. rewrite read_loop_fold by lia.
  cbn [option_map]. now rewrite probabilities_fold.
Qed.

Lemma emitted_length (ls : list string) :
  forall v, List.length (emitted ls v) = List.length ls.
Proof.
  induction ls as [|l ls IH]; intros v; cbn; [reflexivity | now rewrite IH].
Qed.

Lemma emitted_nth (ls : list string) :
  forall (i : nat) (v : vars) (line : string),
    nth_error ls i = Some line ->
    nth_error (emitted ls v) i
    = Some (probability (body line (fold_left (fun v l => body l v) (firstn i ls) v))).
Proof.
  induction ls as [|l ls IH]; intros [|i] v line H; cbn in H; try discriminate.
  - injection H as ->. reflexivity.
  - cbn [emitted nth_error firstn fold_left]. now apply IH.
Qed.

Lemma body_ratio_kept (line : string) (v : vars) : ratio_kept (body line v).
Proof.
  unfold ratio_kept, body.
  destruct (get_int _ (index v)) as [i s1].
  destruct (get_int s1 _) as [m s2]. destruct (get_int s2 _) as [n s3].
  reflexivity.
Qed.

Lemma fold_ratio_kept (ls : list string) :
  forall v, ratio_kept v -> ratio_kept (fold_left (fun v l => body l v) ls v).
Proof.
  induction ls as [|l ls IH]; intros v Hv; cbn [fold_left]; [exact Hv|].
  apply IH, body_ratio_kept.
Qed.

(** A line whose first extraction fails leaves both counts alone. *)
Lemma body_first_field_fails (line : string) (v : vars) :
  first_field_fails line = true ->
  has_mutation_total (body line v) = has_mutation_total v /\
  has_no_mutation_total (body line v) = has_no_mutation_total v /\
  (ratio_kept v -> probability (body line v) = probability v).
Proof.
  unfold first_field_fails, body. intros H.
  assert (Hfail : forall a, failbit (snd (get_int (open (remove_newlines line)) a)) = true).
  { intros a. revert H. unfold get_int.
    destruct (sentry (open (remove_newlines line))) as [[|] s1]; [|exact (fun H => H)].
    destruct (sign (buf s1)) as [neg b].
    destruct (digits b 0 false) as [[mag seen] rest].
    exact (fun H => H). }
  specialize (Hfail (index v)).
  destruct (get_int (open (remove_newlines line)) (index v)) as [i s1].
  cbn [snd] in Hfail.
  destruct (get_int_failed s1 (has_mutation_total v) Hfail) as [Hm Hf2].
  destruct (get_int s1 (has_mutation_total v)) as [m s2]. cbn [fst snd] in *.
  destruct (get_int_failed s2 (has_no_mutation_total v) Hf2) as [Hn _].
  destruct (get_int s2 (has_no_mutation_total v)) as [n s3]. cbn [fst snd] in *.
  subst m n. cbn. repeat split. intros Hk. now rewrite Hk.
Qed.

Lemma firstn_snoc {A : Type} (ls : list A) :
  forall (j : nat) (x : A),
    nth_error ls j = Some x -> firstn (S j) ls = (firstn j ls ++ [x])%list.
Proof.
  induction ls as [|a ls IH]; intros [|j] x H; cbn in H; try discriminate.
  - injection H as ->. reflexivity.
  - rewrite firstn_cons, (IH j x H). reflexivity.
Qed.

Lemma state_before_ratio_kept (fin : string) (i : nat) :
  ratio_kept (state_before fin i).
Proof. apply fold_ratio_kept. reflexivity. Qed.

(** The state in which line [S j] is read carries the probability pushed
    for line [j]. *)
Lemma state_before_succ (fin : string) (j : nat) (lj : string) :
  nth_error (getlines fin) j = Some lj ->
  state_before fin (S j) = body lj (state_before fin j).
Proof.
  intros H. unfold state_before.
  rewrite (firstn_snoc _ _ _ H), fold_left_app. reflexivity.
Qed.

(** Lines that are not rows: a line without a number and an empty line
    repeat the previous probability, a line that stops after its second
    field divides by a total that includes the third field of the line
    before, and a third field that is no number counts as 0. *)
Example main_malformed_lines :
  main (row " " " " 0 10 90
        ++ String newline ("abc"
        ++ String newline (""
        ++ String newline ("1 5"
        ++ String newline ("1 5 x"
        ++ String newline "")))))
  = Some [0.1%float; 0.1%float; 0.1%float; (5 / 95)%float; 1%float].
Proof. vm_compute. reflexivity. Qed.

(** Columns separated by tabs, a second row whose counts are both 0. *)
Example main_tab_separated :
  main (row (String "009" "") (String "009" "") 7 3 1
        ++ String newline (row (String "009" "") (String "009" "") 8 0 0))
  = Some [0.75%float; 0%float].
Proof. vm_compute. reflexivity. Qed.

(** C2: every well-formed row of the counts file, with second column [m]
    and third column [n], makes the utility emit the double quotient
    m / (m + n), and exactly 0 when m + n = 0, whatever the lines before it
    left in the variables; the rows (0, 10, 90) and (1, 0, 0) give 0.1 and
    0.0. *)
Theorem row_empirical_probability
    (fin : string) (i : nat) (sep1 sep2 : string) (idx m n : Z) :
  (0 <= idx <= Int.INT_MAX)%Z -> (0 <= m)%Z -> (0 <= n)%Z ->
  (m + n <= Int.INT_MAX)%Z ->
  separator sep1 = true -> separator sep2 = true ->
  nth_error (getlines fin) i = Some (row sep1 sep2 idx m n) ->
  (exists out,
     main fin = Some out /\
     nth_error out i
     = Some (if (m + n =? 0)%Z then 0%float
             else (Int.to_double m / Int.to_double (m + n))%float))
  /\ main simulation_example = Some [0.1%float; 0%float].
Proof.
  intros Hidx Hm Hn Hsum H1 H2 Hline. split.
  - exists (emitted (getlines fin) init). split; [apply main_emitted|].
    rewrite (emitted_nth _ _ _ _ Hline).
    rewrite body_row by assumption. reflexivity.
  - rewrite main_emitted. vm_compute. reflexivity.
Qed.

(** The first row of [simulation_example], (0, 10, 90), emits 0.1. *)
Lemma row_empirical_probability_witness :
  (exists out,
     main simulation_example = Some out /\
     nth_error out 0 = Some 0.1%float)
  /\ main simulation_example = Some [0.1%float; 0%float].
Proof.
  apply (row_empirical_probability simulation_example 0 " " " " 0 10 90).
  - unfold Int.INT_MAX; lia.
  - lia.
  - lia.
  - unfold Int.INT_MAX; lia.
  - reflexivity.
  - reflexivity.
  - reflexivity.
Defined.

(** C9, as stated, fails: the second line of [stale_example] holds no
    number, yet both counts keep the values of the first row and the
    probability emitted for it is 0.1, not 0.0. *)
Lemma unparsed_line_keeps_counts :
  nth_error (getlines stale_example) 1 = Some "abc" /\
  parse_fails "abc" = true /\
  has_mutation_total (body "abc" (state_before stale_example 1)) = 10%Z /\
  has_no_mutation_total (body "abc" (state_before stale_example 1)) = 90%Z /\
  main stale_example = Some [0.1%float; 0.1%float] /\
  nth_error [0.1%float; 0.1%float] 1 <> Some 0%float.
Proof.
  repeat split; try (vm_compute; reflexivity).
  intros H.
  apply (f_equal (fun o => match o with
                           | Some x => Prim2SF x
                           | None => S754_nan
                           end)) in H.
  vm_compute in H. discriminate H.
Qed.

(** C9, amended: the utility emits exactly one probability per input line,
    in input order, so the output has as many lines as the input; a line
    whose first field fails numeric parsing leaves both counts as the
    previous line left them (0 before the first line), and the probability
    emitted for it repeats the previous line's (0.0 on the first line). *)
Theorem one_probability_per_line (fin : string) :
  exists out,
    main fin = Some out /\
    List.length out = List.length (getlines fin) /\
    forall (i : nat) (line : string),
      nth_error (getlines fin) i = Some line ->
      nth_error out i = Some (probability (body line (state_before fin i))) /\
      (first_field_fails line = true ->
       has_mutation_total (body line (state_before fin i))
       = has_mutation_total (state_before fin i) /\
       has_no_mutation_total (body line (state_before fin i))
       = has_no_mutation_total (state_before fin i) /\
       nth_error out i
       = Some (match i with O => 0%float | S j => nth j out 0%float end)).
Proof.
  exists (emitted (getlines fin) init).
  split; [apply main_emitted|]. split; [apply emitted_length|].
  intros i line Hline.
  pose proof (emitted_nth _ _ init _ Hline) as Hnth.
  split; [exact Hnth|]. intros Hfail.
  destruct (body_first_field_fails line (state_before fin i) Hfail)
    as (Hm & Hn & Hp).
  split; [exact Hm|]. split; [exact Hn|].
  rewrite Hnth. unfold state_before in Hp |- *.
  rewrite Hp by apply (state_before_ratio_kept fin i). f_equal.
  destruct i as [|j]; [reflexivity|].
  assert (Hj : exists lj, nth_error (getlines fin) j = Some lj).
  { destruct (nth_error (getlines fin) j) as [lj|] eqn:E; [now exists lj|].
    apply nth_error_None in E.
    assert (nth_error (getlines fin) (S j) = None)
      by (apply nth_error_None; lia).
    congruence. }
  destruct Hj as [lj Hlj].
  change (fold_left (fun v l => body l v) (firstn (S j) (getlines fin)) init)
    with (state_before fin (S j)).
  rewrite (state_before_succ fin j lj Hlj).
  symmetry. apply nth_error_nth.
  exact (emitted_nth _ _ init _ Hlj).
Qed.

End CountsProbabilityFacts.

(* ================================================================== *)
(** * Facts: the expectation-maximization loop *)

Module EMFacts.

Import EM.

Section Driver.

Context {I : Interface}.
Variable sites : TrioVector.

Lemma machine_run_add (a b : nat) (m : machine) :
  machine_run sites (a + b) m = machine_run sites b (machine_run sites a m).
Proof.
  revert m. induction a as [|a IH]; intros m; cbn; [reflexivity | apply IH].
Qed.

Lemma machine_run_converged (n : nat) (m : machine) :
  at_phase m = Converged -> machine_run sites n m = m.
Proof.
  intros H. induction n as [|n IH]; cbn; [reflexivity|].
  unfold machine_step. rewrite H. exact IH.
Qed.

Lemma first_head_at_head (p : TrioModel) (s : SufficientStatistics) :
  at_head (first_head sites p s) (machine_run sites 2 (machine_init p s)).
Proof.
  unfold first_head, do_max, do_update, at_head.
  cbn [machine_run machine_init machine_step at_phase model accumulator trace
       params stats maximized calls].
  destruct (Update p sites s) as [p1 s1].
  cbn [params stats maximized calls at_phase model accumulator trace].
  destruct (MaxSequencingErrorRate s1) as [c s2].
  cbn. repeat split; reflexivity.
Qed.

(** A passing test is the machine's move to Converged. *)
Lemma head_converges (h : vars) (m : machine) :
  at_head h m -> converged h = true ->
  machine_step sites m = view Converged (do_test h).
Proof.
  intros (Hph & Hmod & Hmax & Hcalls) Hc.
  unfold machine_step, view, do_test, converged in *.
  rewrite Hph, Hmax, Hmod, Hc.
  cbn [params stats calls]. rewrite Hcalls, <- app_assoc. reflexivity.
Qed.

(** A failing test is the machine's move to E-Step and back to M-Step. *)
Lemma head_fails (h : vars) (m : machine) :
  at_head h m -> converged h = false ->
  machine_step sites m = view EStep (do_clear (do_set (do_test h))).
Proof.
  intros (Hph & Hmod & Hmax & Hcalls) Hc.
  unfold machine_step, view, do_clear, do_set, do_test, converged in *.
  rewrite Hph, Hmax, Hmod, Hc.
  cbn [params stats calls maximized]. rewrite Hcalls, <- !app_assoc.
  reflexivity.
Qed.

Lemma head_iterates (h : vars) (m : machine) :
  at_head h m -> converged h = false ->
  at_phase (machine_step sites m) = EStep /\
  at_head (loop_body sites (do_test h)) (machine_run sites 2 m).
Proof.
  intros Hh Hc. cbn [machine_run]. rewrite (head_fails h m Hh Hc).
  split; [reflexivity|].
  unfold loop_body. generalize (do_clear (do_set (do_test h))). intros w.
  unfold machine_step, view, do_count, do_max, do_update, at_head.
  cbn [at_phase model accumulator trace].
  destruct (Update (params w) sites (stats w)) as [p1 s1].
  cbn [at_phase model accumulator trace params stats maximized calls count].
  destruct (MaxSequencingErrorRate s1) as [c s2].
  cbn [at_phase model accumulator trace params stats maximized calls count].
  repeat split; reflexivity.
Qed.

Lemma em_loop_to_machine (fuel : nat) :
  forall (h wf : vars) (m : machine),
    at_head h m -> em_loop sites fuel h = Some wf ->
    exists n, machine_run sites n m = view Converged wf.
Proof.
  induction fuel as [|k IH]; intros h wf m Hh Hrun; [discriminate|].
  cbn [em_loop] in Hrun. destruct (converged h) eqn:Hc.
  - injection Hrun as <-. exists 1%nat. cbn [machine_run].
    now apply head_converges.
  - destruct (head_iterates h m Hh Hc) as [_ Hnext].
    destruct (IH _ _ _ Hnext Hrun) as [n Hn].
    exists (2 + n)%nat. now rewrite machine_run_add.
Qed.

Lemma machine_to_em_loop (n : nat) :
  forall (h : vars) (m : machine),
    at_head h m -> at_phase (machine_run sites n m) = Converged ->
    exists fuel wf,
      em_loop sites fuel h = Some wf /\
      machine_run sites n m = view Converged wf.
Proof.
  induction n as [n IH] using lt_wf_ind. intros h m Hh Hend.
  destruct (converged h) eqn:Hc.
  - exists 1%nat, (do_test h). cbn [em_loop]. rewrite Hc. split; [reflexivity|].
    pose proof (head_converges h m Hh Hc) as Hstep.
    destruct n as [|n].
    + cbn in Hend. destruct Hh as [Hph _]. congruence.
    + cbn [machine_run]. rewrite Hstep. now apply machine_run_converged.
  - destruct (head_iterates h m Hh Hc) as [He Hnext].
    destruct n as [|[|n]].
    + cbn in Hend. destruct Hh as [Hph _]. congruence.
    + cbn [machine_run] in Hend. congruence.
    + change (S (S n)) with (2 + n)%nat in *.
      rewrite machine_run_add in Hend |- *.
      destruct (IH n ltac:(lia) _ _ Hnext Hend) as (fuel & wf & Hrun & Hm).
      exists (S fuel), wf. cbn [em_loop]. rewrite Hc. now split.
Qed.

(** ** One turn of the loop, call by call *)

Lemma loop_body_calls (w : vars) :
  calls (loop_body sites w)
  = calls w ++ [CallSetSequencingErrorRate (maximized w); CallClear; CallUpdate;
                CallMaxSequencingErrorRate (maximized (loop_body sites w))].
Proof.
  unfold loop_body, do_count, do_max, do_update, do_clear, do_set.
  cbn [params stats maximized calls count].
  destruct (Update _ sites _) as [p1 s1].
  cbn [params stats maximized calls count].
  destruct (MaxSequencingErrorRate s1) as [c s2].
  cbn [params stats maximized calls count].
  rewrite <- !app_assoc. reflexivity.
Qed.

Lemma loop_body_state (w : vars) :
  let p1 := set_sequencing_error_rate (maximized w) (params w) in
  let e := Update p1 sites (Clear (stats w)) in
  let m := MaxSequencingErrorRate (snd e) in
  params (loop_body sites w) = fst e /\
  stats (loop_body sites w) = snd m /\
  maximized (loop_body sites w) = fst m.
Proof.
  unfold loop_body, do_count, do_max, do_update, do_clear, do_set.
  cbn [params stats maximized calls count].
  destruct (Update _ sites _) as [p1 s1].
  cbn [params stats maximized calls count fst snd].
  destruct (MaxSequencingErrorRate s1) as [c s2].
  cbn. repeat split; reflexivity.
Qed.

(** C1: the loop of the driver and the state machine of the
    specification run the same calls in the same order. A run of the loop
    that returns is a run of the machine from Init to Converged with the
    same model, accumulator and calls, and conversely; at the loop head,
    after an E-step and an M-step, a candidate Equal to the model's rate
    stops the loop with no further call, and any other candidate is
    installed by set_sequencing_error_rate, the accumulator is cleared, and
    Update and MaxSequencingErrorRate run again, in that order. *)
Theorem em_refines_state_machine (p : TrioModel) (s : SufficientStatistics) :
  (forall fuel wf,
      em sites fuel p s = Some wf ->
      exists n, machine_run sites n (machine_init p s) = view Converged wf) /\
  (forall n,
      at_phase (machine_run sites n (machine_init p s)) = Converged ->
      exists fuel wf,
        em sites fuel p s = Some wf /\
        machine_run sites n (machine_init p s) = view Converged wf) /\
  (forall fuel h,
      converged h = true ->
      em_loop sites (S fuel) h = Some (do_test h) /\
      params (do_test h) = params h /\ stats (do_test h) = stats h /\
      calls (do_test h)
      = calls h ++ [CallEqual (sequencing_error_rate (params h))
                              (maximized h) true]) /\
  (forall fuel h,
      converged h = false ->
      let h' := loop_body sites (do_test h) in
      let installed := set_sequencing_error_rate (maximized h) (params h) in
      let estep := Update installed sites (Clear (stats h)) in
      em_loop sites (S fuel) h = em_loop sites fuel h' /\
      params h' = fst estep /\
      (maximized h', stats h') = MaxSequencingErrorRate (snd estep) /\
      calls h'
      = calls h ++ [CallEqual (sequencing_error_rate (params h))
                              (maximized h) false;
                    CallSetSequencingErrorRate (maximized h);
                    CallClear; CallUpdate;
                    CallMaxSequencingErrorRate (maximized h')]).
Proof.
  split; [|split; [|split]].
  - intros fuel wf Hrun.
    destruct (em_loop_to_machine fuel _ wf _ (first_head_at_head p s) Hrun)
      as [n Hn].
    exists (2 + n)%nat. now rewrite machine_run_add.
  - intros n Hend.
    destruct n as [|[|n]].
    + discriminate Hend.
    + discriminate Hend.
    + change (S (S n)) with (2 + n)%nat in *.
      rewrite machine_run_add in Hend |- *.
      exact (machine_to_em_loop n _ _ (first_head_at_head p s) Hend).
  - intros fuel h Hc. cbn [em_loop]. rewrite Hc.
    unfold do_test. cbn [params stats calls]. rewrite Hc.
    repeat split; reflexivity.
  - intros fuel h Hc h' installed estep. cbn [em_loop]. rewrite Hc.
    split; [reflexivity|].
    destruct (loop_body_state (do_test h)) as (Hp & Hs & Hm).
    pose proof (loop_body_calls (do_test h)) as Hcalls.
    cbn [do_test params stats maximized calls] in Hp, Hs, Hm, Hcalls.
    split; [exact Hp|]. split.
    + subst h' estep installed.
      rewrite Hs, Hm. now destruct (MaxSequencingErrorRate _).
    + subst h'. rewrite Hcalls, Hc, <- app_assoc. reflexivity.
Qed.

(** ** Termination *)

Lemma em_loop_converges_at (k : nat) :
  forall h, converged (loop_head sites k h) = true ->
            exists wf, em_loop sites (S k) h = Some wf.
Proof.
  induction k as [|k IH]; intros h Hc.
  - cbn in *. rewrite Hc. now eexists.
  - cbn [loop_head] in Hc. destruct (converged h) eqn:E.
    + exists (do_test h). cbn [em_loop]. now rewrite E.
    + destruct (IH _ Hc) as [wf Hwf]. exists wf.
      change (em_loop sites (S (S k)) h)
        with (if converged h then Some (do_test h)
              else em_loop sites (S k) (loop_body sites (do_test h))).
      now rewrite E.
Qed.

Lemma em_loop_returns_converged (fuel : nat) :
  forall h wf, em_loop sites fuel h = Some wf ->
               exists k, (k < fuel)%nat /\ converged (loop_head sites k h) = true.
Proof.
  induction fuel as [|f IH]; intros h wf Hrun; [discriminate|].
  cbn [em_loop] in Hrun. destruct (converged h) eqn:E.
  - exists 0%nat. split; [lia | exact E].
  - destruct (IH _ _ Hrun) as (k & Hk & Hc).
    exists (S k). split; [lia | exact Hc].
Qed.

Lemma em_loop_still_running (fuel : nat) :
  forall h,
    (forall k, (k < fuel)%nat -> converged (loop_head sites k h) = false) ->
    em_loop sites fuel h = None.
Proof.
  induction fuel as [|f IH]; intros h Hall; [reflexivity|].
  cbn [em_loop]. pose proof (Hall 0%nat ltac:(lia)) as H0.
  cbn [loop_head] in H0. rewrite H0.
  apply IH. intros k Hk. apply (Hall (S k)). lia.
Qed.

Lemma first_head_count (p : TrioModel) (s : SufficientStatistics) :
  count (first_head sites p s) = 0 /\
  exists c, calls (first_head sites p s)
            = [CallUpdate; CallMaxSequencingErrorRate c].
Proof.
  unfold first_head, do_max, do_update. cbn [params stats maximized count calls].
  destruct (Update p sites s) as [p1 s1].
  cbn [params stats maximized count calls].
  destruct (MaxSequencingErrorRate s1) as [c s2].
  cbn. split; [reflexivity | now exists c].
Qed.

(** C3: the loop has no iteration bound and leaves only through Equal. It
    returns exactly when the test passes at some loop head; as long as the
    test fails the loop is still running, however many iterations are
    allowed; and when the first candidate already equals the initial rate
    it returns at once, [count] still 0, after the calls Update,
    MaxSequencingErrorRate and Equal only. *)
Theorem em_exits_only_on_equal (p : TrioModel) (s : SufficientStatistics) :
  ((exists fuel wf, em sites fuel p s = Some wf) <->
   (exists k, converged (loop_head sites k (first_head sites p s)) = true)) /\
  (forall fuel,
      (forall k, (k < fuel)%nat ->
                 converged (loop_head sites k (first_head sites p s)) = false) ->
      em sites fuel p s = None) /\
  (converged (first_head sites p s) = true ->
   forall fuel,
     exists wf,
       em sites (S fuel) p s = Some wf /\ count wf = 0 /\
       params wf = params (first_head sites p s) /\
       exists c r, calls wf = [CallUpdate; CallMaxSequencingErrorRate c;
                               CallEqual r c true]).
Proof.
  split; [|split].
  - split.
    + intros (fuel & wf & Hrun).
      destruct (em_loop_returns_converged fuel _ wf Hrun) as (k & _ & Hc).
      now exists k.
    + intros (k & Hc). destruct (em_loop_converges_at k _ Hc) as [wf Hwf].
      now exists (S k), wf.
  - intros fuel Hall. now apply em_loop_still_running.
  - intros Hc fuel. exists (do_test (first_head sites p s)).
    unfold em. cbn [em_loop]. rewrite Hc.
    destruct (first_head_count p s) as (H0 & c & Hcalls).
    split; [reflexivity|]. split; [exact H0|]. split; [reflexivity|].
    exists c, (sequencing_error_rate (params (first_head sites p s))).
    unfold do_test. cbn [calls]. rewrite Hcalls, Hc.
    assert (Hm : maximized (first_head sites p s) = c).
    { revert Hcalls. unfold first_head, do_max, do_update.
      cbn [params stats maximized count calls].
      destruct (Update p sites s) as [p1 s1].
      cbn [params stats maximized count calls].
      destruct (MaxSequencingErrorRate s1) as [c' s2].
      cbn. intros H. now injection H. }
    rewrite Hm. reflexivity.
Qed.

End Driver.

(** Nothing but Equal ends the loop: where it never holds, no amount of
    fuel makes the loop return. *)
Lemma em_restless_never_returns (fuel : nat) (p s : float) :
  em (I:=restless) tt fuel p s = None.
Proof.
  unfold em. apply em_loop_still_running. intros k _. reflexivity.
Qed.

(** The loop run on the toy instance from the rate 0.01: it returns, and
    the machine reaches Converged with the same model, accumulator and
    calls. *)
Lemma em_refines_state_machine_witness :
  exists wf n,
    em (I:=halving) tt 100 0.01%float 0%float = Some wf /\
    machine_run (I:=halving) tt n (machine_init (I:=halving) 0.01%float 0%float)
    = view Converged wf.
Proof.
  assert (H : exists wf, em (I:=halving) tt 100 0.01%float 0%float = Some wf)
    by (vm_compute; eexists; reflexivity).
  destruct H as [wf H]. exists wf.
  destruct (proj1 (em_refines_state_machine (I:=halving) tt 0.01%float 0%float)
              100%nat wf H) as [n Hn].
  exists n. split; assumption.
Defined.

(** The toy instance started at its fixed point, the rate 0. *)
Lemma em_exits_only_on_equal_witness :
  exists wf,
    em (I:=halving) tt 1 0%float 0%float = Some wf /\ count wf = 0 /\
    params wf = params (first_head (I:=halving) tt 0%float 0%float) /\
    exists c r, calls wf = [CallUpdate; CallMaxSequencingErrorRate c;
                            CallEqual r c true].
Proof.
  apply (proj2 (proj2 (em_exits_only_on_equal (I:=halving) tt 0%float 0%float))).
  vm_compute. reflexivity.
Defined.

End EMFacts.

(* ================================================================== *)
(** * Facts: the class [TrioModel] *)

Module TrioFacts.

Import Trio.
Local Open Scope float_scope.

(** ** Doubles *)

Lemma finite_cases (x : float) :
  PrimFloat.is_finite x = true ->
  (exists s, Prim2SF x = S754_zero s) \/
  (exists s m e, Prim2SF x = S754_finite s m e).
Proof.
  unfold PrimFloat.is_finite, PrimFloat.is_nan, PrimFloat.is_infinity.
  rewrite !FloatAxioms.eqb_spec, abs_spec.
  destruct (Prim2SF x) as [s | s | | s m e] eqn:E; intros H.
  - left. now exists s.
  - exfalso. revert H. destruct s; vm_compute; discriminate.
  - exfalso. revert H. vm_compute. discriminate.
  - right. now exists s, m, e.
Qed.

(** A finite double minus itself is +0. *)
Lemma sub_self (x : float) : PrimFloat.is_finite x = true -> x - x = 0.
Proof.
  intros H. apply Prim2SF_inj. rewrite sub_spec.
  destruct (finite_cases x H) as [[s E] | (s & m & e & E)]; rewrite E.
  - destruct s; reflexivity.
  - unfold SF64sub, SFsub. rewrite Z.min_id.
    match goal with
    | |- binary_normalize _ _ ?d _ _ = _ =>
        replace d with 0%Z by (symmetry; apply Z.sub_diag)
    end.
    reflexivity.
Qed.

Section Model.

Context {L : Layers}.

Lemma Equal_refl (x : float) :
  (0 <? epsilon) = true -> PrimFloat.is_finite x = true -> Equal x x = true.
Proof.
  intros He Hx. unfold Equal. rewrite (sub_self x Hx). exact He.
Qed.

Lemma EqualRow_refl (v : RowVector4d) :
  (0 <? epsilon) = true -> finite_row v = true -> EqualRow v v = true.
Proof.
  intros He Hv. unfold finite_row in Hv. unfold EqualRow.
  apply andb_true_iff in Hv. destruct Hv as [Hv Ht].
  apply andb_true_iff in Hv. destruct Hv as [Hv Hg].
  apply andb_true_iff in Hv. destruct Hv as [Ha Hc].
  now rewrite !Equal_refl.
Qed.

(** C8: two models constructed with the same six parameters, all of them
    finite doubles, satisfy [Equals], the tolerance being positive. *)
Theorem equals_same_parameters
    (population_mutation_rate germline_mutation_rate somatic_mutation_rate
     sequencing_error_rate dirichlet_dispersion : float)
    (nucleotide_frequencies : RowVector4d) :
  (0 <? epsilon) = true ->
  PrimFloat.is_finite population_mutation_rate = true ->
  PrimFloat.is_finite germline_mutation_rate = true ->
  PrimFloat.is_finite somatic_mutation_rate = true ->
  PrimFloat.is_finite sequencing_error_rate = true ->
  PrimFloat.is_finite dirichlet_dispersion = true ->
  finite_row nucleotide_frequencies = true ->
  Equals
    (TrioModel_new population_mutation_rate germline_mutation_rate
       somatic_mutation_rate sequencing_error_rate dirichlet_dispersion
       nucleotide_frequencies)
    (TrioModel_new population_mutation_rate germline_mutation_rate
       somatic_mutation_rate sequencing_error_rate dirichlet_dispersion
       nucleotide_frequencies)
  = true.
Proof.
  intros He Hp Hg Hs Hq Hd Hf. unfold Equals, TrioModel_new.
  cbn [population_mutation_rate_ germline_mutation_rate_
       somatic_mutation_rate_ sequencing_error_rate_ dirichlet_dispersion_
       nucleotide_frequencies_].
  rewrite !Equal_refl by assumption.
  now rewrite EqualRow_refl.
Qed.

End Model.

(** Without finiteness the comparison fails: a NaN differs from itself. *)
Lemma Equal_nan : Equal (L:=small) nan nan = false.
Proof. vm_compute. reflexivity. Qed.

(** Two models built from the same finite parameters on [small]. *)
Lemma equals_same_parameters_witness :
  Equals (L:=small)
    (TrioModel_new (L:=small) 0.001 0.00000002 0.00000002 0.005 1000 quarter)
    (TrioModel_new (L:=small) 0.001 0.00000002 0.00000002 0.005 1000 quarter)
  = true.
Proof.
  apply (equals_same_parameters (L:=small)); vm_compute; reflexivity.
Defined.

End TrioFacts.

(* ================================================================== *)
(** * Facts: lines of every shape in counts_probability.cc *)

Module CountsTextFacts.

Import Istream IstreamFacts CountsProbability CountsProbabilityFacts CountsText.
Local Open Scope string_scope.

Lemma string_append_assoc (a b c : string) : (a ++ b) ++ c = a ++ (b ++ c).
Proof. induction a as [|x a IH]; cbn; [reflexivity | now rewrite IH]. Qed.

Lemma digits_decimal (z : Z) (rest : string) :
  (0 <= z)%Z -> stops_digits rest ->
  digits (dec z ++ rest) 0 false = (z, true, rest).
Proof.
  intros Hz Hrest. unfold dec.
  rewrite (digits_acc_zero _ false rest Hrest), to_uint_nonnil.
  change (Pos.of_uint (N.to_uint (Z.to_N z))) with (N.of_uint (N.to_uint (Z.to_N z))).
  rewrite DecimalN.Unsigned.of_to, Z2N.id by assumption. reflexivity.
Qed.

(** Reading back the decimal text of any [int], behind any white space. *)
Lemma get_int_signed (ws rest : string) (z val : Z) :
  all_space ws -> stops_digits rest -> Int.in_range z ->
  get_int {| buf := ws ++ sdec z ++ rest; eofbit := false; failbit := false |} val
  = (z, {| buf := rest; eofbit := at_end rest; failbit := false |}).
Proof.
  intros Hws Hrest [Hlo Hhi]. unfold sdec.
  destruct (Z.ltb_spec z 0) as [Hneg | Hpos].
  - unfold get_int, sentry. cbn [good eofbit failbit negb andb buf].
    rewrite skipws_app by assumption.
    cbn [String.append skipws isspace buf sign].
    rewrite digits_decimal by (assumption || lia).
    cbn [negb]. replace (- - z)%Z with z by lia.
    destruct (Z.ltb_spec z Int.INT_MIN) as [H1 | _]; [lia|].
    destruct (Z.ltb_spec Int.INT_MAX z) as [H2 | _]; [lia | reflexivity].
  - unfold dec. rewrite (get_int_field ws rest (Z.to_N z) val Hws Hrest)
      by (rewrite Z2N.id; assumption).
    now rewrite Z2N.id.
Qed.

Lemma get_int_signed_here (rest : string) (z val : Z) :
  stops_digits rest -> Int.in_range z ->
  get_int {| buf := sdec z ++ rest; eofbit := false; failbit := false |} val
  = (z, {| buf := rest; eofbit := at_end rest; failbit := false |}).
Proof.
  intros Hrest Hz.
  apply (get_int_signed "" rest z val); [intros c [] | assumption ..].
Qed.

Lemma remove_newlines_sdec (z : Z) : remove_newlines (sdec z) = sdec z.
Proof.
  unfold sdec, dec. destruct (z <? 0)%Z.
  - cbn [remove_newlines Ascii.eqb newline Bool.eqb].
    now rewrite remove_newlines_decimal.
  - apply remove_newlines_decimal.
Qed.

Lemma remove_newlines_blank (s : string) : blank s = true -> remove_newlines s = s.
Proof.
  induction s as [|c r IH]; [reflexivity|].
  cbn [blank remove_newlines]. intros H.
  apply andb_true_iff in H. destruct H as [Hc Hr].
  unfold is_sep in Hc. apply andb_true_iff in Hc. destruct Hc as [_ Hn].
  apply negb_true_iff in Hn. rewrite Hn. now rewrite IH.
Qed.

Lemma blank_all_space (s : string) : blank s = true -> all_space s.
Proof.
  induction s as [|c r IH]; intros H x Hx; [destruct Hx|].
  cbn [blank] in H. apply andb_true_iff in H. destruct H as [Hc Hr].
  cbn in Hx. destruct Hx as [<- | Hx].
  - unfold is_sep in Hc. now apply andb_true_iff in Hc.
  - now apply IH.
Qed.

(** An extraction that meets nothing but white space stores nothing. *)
Lemma get_int_blank (ws : string) (val : Z) :
  all_space ws ->
  fst (get_int {| buf := ws; eofbit := at_end ws; failbit := false |} val) = val.
Proof.
  intros Hws. destruct ws as [|c r].
  - reflexivity.
  - unfold get_int, sentry. cbn [good eofbit failbit at_end negb andb buf].
    rewrite <- (append_empty_r (String c r)), skipws_app by assumption.
    reflexivity.
Qed.

(** The loop body on a row of three [int]s of either sign. *)
Lemma body_srow (v : vars) (sep1 sep2 : string) (idx m n : Z) :
  separator sep1 = true -> separator sep2 = true ->
  Int.in_range idx -> Int.in_range m -> Int.in_range n ->
  body (srow sep1 sep2 idx m n) v
  = {| probability := empirical m n;
       probabilities := (probabilities v ++ [empirical m n])%list;
       index := idx; has_mutation_total := m;
       has_no_mutation_total := n; total_trios := Int.add m n |}.
Proof.
  intros H1 H2 Hidx Hm Hn. unfold body, srow.
  rewrite !remove_newlines_app, !remove_newlines_sdec,
    !remove_newlines_separator by assumption.
  unfold open.
  destruct (separator_stops sep1 (sdec m ++ sep2 ++ sdec n) H1) as [Hs1 He1].
  destruct (separator_stops sep2 (sdec n) H2) as [Hs2 He2].
  rewrite (get_int_signed_here _ idx (index v) Hs1 Hidx), He1.
  rewrite (get_int_signed sep1 _ m (has_mutation_total v)
             (separator_all_space sep1 H1) Hs2 Hm), He2.
  rewrite <- (append_empty_r (sdec n)).
  rewrite (get_int_signed sep2 "" n (has_no_mutation_total v)
             (separator_all_space sep2 H2) I Hn).
  reflexivity.
Qed.

(** ** Rows of either sign *)

(** X1: a line of three decimal [int]s of either sign, separated by white
    space, is read back exactly whatever the lines before it left: after
    it the three variables hold the three numbers, the total is their
    wrapped sum, and the probability emitted for the line is computed from
    those two counts. *)
Theorem signed_row_read_back
    (fin : string) (i : nat) (sep1 sep2 : string) (idx m n : Z) :
  separator sep1 = true -> separator sep2 = true ->
  Int.in_range idx -> Int.in_range m -> Int.in_range n ->
  nth_error (getlines fin) i = Some (srow sep1 sep2 idx m n) ->
  index (state_before fin (S i)) = idx /\
  has_mutation_total (state_before fin (S i)) = m /\
  has_no_mutation_total (state_before fin (S i)) = n /\
  total_trios (state_before fin (S i)) = Int.add m n /\
  exists out, main fin = Some out /\ nth_error out i = Some (empirical m n).
Proof.
  intros H1 H2 Hidx Hm Hn Hline.
  rewrite (state_before_succ fin i _ Hline).
  rewrite (body_srow _ sep1 sep2 idx m n H1 H2 Hidx Hm Hn).
  cbn [index has_mutation_total has_no_mutation_total total_trios].
  repeat split.
  exists (emitted (getlines fin) init). split; [apply main_emitted|].
  rewrite (emitted_nth _ _ _ _ Hline).
  now rewrite (body_srow _ sep1 sep2 idx m n H1 H2 Hidx Hm Hn).
Qed.

(** A file whose second line is (-3, -1, 4): the quotient -1 / 3. *)
Lemma signed_row_read_back_witness :
  index (state_before (unlines ["1 2 3"; "-3 -1 4"]) 2) = (-3)%Z /\
  has_mutation_total (state_before (unlines ["1 2 3"; "-3 -1 4"]) 2) = (-1)%Z /\
  has_no_mutation_total (state_before (unlines ["1 2 3"; "-3 -1 4"]) 2) = 4%Z /\
  total_trios (state_before (unlines ["1 2 3"; "-3 -1 4"]) 2) = Int.add (-1) 4 /\
  exists out, main (unlines ["1 2 3"; "-3 -1 4"]) = Some out /\
              nth_error out 1 = Some (empirical (-1) 4).
Proof.
  apply (signed_row_read_back (unlines ["1 2 3"; "-3 -1 4"]) 1 " " " " (-3) (-1) 4).
  - reflexivity.
  - reflexivity.
  - unfold Int.in_range, Int.INT_MIN, Int.INT_MAX; lia.
  - unfold Int.in_range, Int.INT_MIN, Int.INT_MAX; lia.
  - unfold Int.in_range, Int.INT_MIN, Int.INT_MAX; lia.
  - reflexivity.
Defined.

(** ** Lines that are not rows *)

Lemma blank_stops (s : string) : blank s = true -> stops_digits s.
Proof.
  destruct s as [|c r]; [intros _; exact I|].
  cbn [blank stops_digits]. intros H. apply andb_true_iff in H.
  destruct H as [Hc _]. apply space_not_digit.
  unfold is_sep in Hc. now apply andb_true_iff in Hc.
Qed.

(** X3: on a line that stops after its second number (white space may
    follow), the third extraction stores nothing: the count without
    mutation keeps the value the previous line left, and the probability
    emitted divides by a total that includes it. *)
Theorem short_line_keeps_third_count
    (v : vars) (sep1 trailing : string) (idx m : Z) :
  separator sep1 = true -> blank trailing = true ->
  Int.in_range idx -> Int.in_range m ->
  body (short_row sep1 trailing idx m) v
  = {| probability := empirical m (has_no_mutation_total v);
       probabilities :=
         (probabilities v ++ [empirical m (has_no_mutation_total v)])%list;
       index := idx; has_mutation_total := m;
       has_no_mutation_total := has_no_mutation_total v;
       total_trios := Int.add m (has_no_mutation_total v) |}.
Proof.
  intros H1 Ht Hidx Hm. unfold body, short_row.
  rewrite !remove_newlines_app, !remove_newlines_sdec,
    remove_newlines_separator, remove_newlines_blank by assumption.
  unfold open.
  destruct (separator_stops sep1 (sdec m ++ trailing) H1) as [Hs1 He1].
  rewrite (get_int_signed_here _ idx (index v) Hs1 Hidx), He1.
  rewrite (get_int_signed sep1 trailing m (has_mutation_total v)
             (separator_all_space sep1 H1) (blank_stops _ Ht) Hm).
  pose proof (get_int_blank trailing (has_no_mutation_total v)
                (blank_all_space _ Ht)) as Hn.
  destruct (get_int _ (has_no_mutation_total v)) as [n s3].
  cbn [fst] in Hn. subst n. reflexivity.
Qed.

(** After the row (0, 10, 90), the line "1 5" emits 5 / 95. *)
Lemma short_line_keeps_third_count_witness :
  body (short_row " " "" 1 5) (body (row " " " " 0 10 90) init)
  = {| probability := empirical 5 90;
       probabilities := [0.1%float; empirical 5 90];
       index := 1; has_mutation_total := 5;
       has_no_mutation_total := 90; total_trios := 95 |}.
Proof.
  apply (short_line_keeps_third_count (body (row " " " " 0 10 90) init) " " "" 1 5).
  - reflexivity.
  - reflexivity.
  - unfold Int.in_range, Int.INT_MIN, Int.INT_MAX; lia.
  - unfold Int.in_range, Int.INT_MIN, Int.INT_MAX; lia.
Defined.

Lemma no_number_head (c : ascii) (r : string) :
  starts_no_number (String c r) = true ->
  isspace c = false /\ isdigit c = false /\
  sign (String c r) = (false, String c r) /\ Ascii.eqb c newline = false.
Proof.
  destruct c as [[] [] [] [] [] [] [] []]; cbn; intros H;
    first [discriminate H | repeat split; reflexivity].
Qed.

(** An extraction that meets a text which cannot start a number stores 0. *)
Lemma get_int_no_number (ws junk : string) (val : Z) :
  all_space ws -> starts_no_number junk = true ->
  fst (get_int {| buf := ws ++ junk; eofbit := false; failbit := false |} val) = 0%Z.
Proof.
  intros Hws Hj. destruct junk as [|c r]; [discriminate Hj|].
  destruct (no_number_head c r Hj) as (Hsp & Hd & Hsg & _).
  unfold get_int, sentry. cbn [good eofbit failbit negb andb buf].
  rewrite skipws_app by assumption. cbn [skipws]. rewrite Hsp. cbn [buf].
  rewrite Hsg. cbn [digits]. rewrite Hd. reflexivity.
Qed.

Lemma remove_newlines_no_number (junk : string) :
  starts_no_number junk = true ->
  starts_no_number (remove_newlines junk) = true.
Proof.
  destruct junk as [|c r]; [discriminate|]. intros Hj.
  destruct (no_number_head c r Hj) as (_ & _ & _ & Hn).
  cbn [remove_newlines]. rewrite Hn. exact Hj.
Qed.

(** X4: a line whose third field cannot start a number is read as the row
    with the same first two numbers and 0 without mutation: the failed
    conversion stores 0 whatever the previous line left. *)
Theorem bad_third_field_reads_as_zero
    (v : vars) (sep1 sep2 junk : string) (idx m : Z) :
  separator sep1 = true -> separator sep2 = true ->
  starts_no_number junk = true ->
  Int.in_range idx -> Int.in_range m ->
  body (sdec idx ++ sep1 ++ sdec m ++ sep2 ++ junk) v
  = body (srow sep1 sep2 idx m 0) v.
Proof.
  intros H1 H2 Hj Hidx Hm.
  rewrite (body_srow v sep1 sep2 idx m 0 H1 H2 Hidx Hm)
    by (unfold Int.in_range, Int.INT_MIN, Int.INT_MAX; lia).
  unfold body.
  rewrite !remove_newlines_app, !remove_newlines_sdec,
    !remove_newlines_separator by assumption.
  pose proof (remove_newlines_no_number junk Hj) as Hj'.
  generalize dependent (remove_newlines junk). intros junk' Hj'.
  unfold open.
  destruct (separator_stops sep1 (sdec m ++ sep2 ++ junk') H1) as [Hs1 He1].
  destruct (separator_stops sep2 junk' H2) as [Hs2 He2].
  rewrite (get_int_signed_here _ idx (index v) Hs1 Hidx), He1.
  rewrite (get_int_signed sep1 _ m (has_mutation_total v)
             (separator_all_space sep1 H1) Hs2 Hm), He2.
  pose proof (get_int_no_number sep2 junk' (has_no_mutation_total v)
                (separator_all_space sep2 H2) Hj') as Hn.
  destruct (get_int _ (has_no_mutation_total v)) as [n s3].
  cbn [fst] in Hn. subst n. reflexivity.
Qed.

(** After the row (0, 10, 90), the line "1 5 x" is the row (1, 5, 0). *)
Lemma bad_third_field_reads_as_zero_witness :
  body (sdec 1 ++ " " ++ sdec 5 ++ " " ++ "x") (body (row " " " " 0 10 90) init)
  = body (srow " " " " 1 5 0) (body (row " " " " 0 10 90) init).
Proof.
  apply (bad_third_field_reads_as_zero (body (row " " " " 0 10 90) init)
           " " " " "x" 1 5).
  - reflexivity.
  - reflexivity.
  - reflexivity.
  - unfold Int.in_range, Int.INT_MIN, Int.INT_MAX; lia.
  - unfold Int.in_range, Int.INT_MIN, Int.INT_MAX; lia.
Defined.

Lemma remove_newlines_id (s : string) : no_newline s = true -> remove_newlines s = s.
Proof.
  induction s as [|c r IH]; [reflexivity|].
  cbn [no_newline remove_newlines]. intros H.
  apply andb_true_iff in H. destruct H as [Hc Hr].
  apply negb_true_iff in Hc. rewrite Hc. now rewrite IH.
Qed.

(** Extraction of a number that does not fit an [int]. *)
Lemma get_int_out_of_range (rest : string) (z val : Z) :
  stops_digits rest -> (z < Int.INT_MIN \/ Int.INT_MAX < z)%Z ->
  get_int {| buf := sdec z ++ rest; eofbit := false; failbit := false |} val
  = (if (z <? 0)%Z then Int.INT_MIN else Int.INT_MAX,
     {| buf := rest; eofbit := at_end rest; failbit := true |}).
Proof.
  intros Hrest Hz. unfold sdec.
  destruct (Z.ltb_spec z 0) as [Hneg | Hpos].
  - unfold get_int, sentry. cbn [good eofbit failbit negb andb buf].
    cbn [String.append skipws isspace buf sign].
    rewrite digits_decimal by (assumption || lia).
    cbn [negb]. replace (- - z)%Z with z by lia.
    destruct (Z.ltb_spec z Int.INT_MIN) as [_ | H1]; [reflexivity|].
    unfold Int.INT_MIN, Int.INT_MAX in *. lia.
  - destruct (decimal_head (N.to_uint (Z.to_N z)) (to_uint_nonnil _))
      as (c & r & Hd & Hc).
    pose proof (digits_decimal z rest Hpos Hrest) as Hdig.
    unfold get_int, sentry. cbn [good eofbit failbit negb andb buf].
    unfold dec in *. rewrite Hd in *. cbn [String.append] in *.
    cbn [skipws]. rewrite (digit_not_space c Hc). cbn [buf].
    rewrite (sign_digit c _ Hc), Hdig. cbn [negb].
    destruct (Z.ltb_spec z Int.INT_MIN) as [H1 | _];
      [unfold Int.INT_MIN in H1; lia|].
    destruct (Z.ltb_spec Int.INT_MAX z) as [_ | H2]; [reflexivity|].
    unfold Int.INT_MIN, Int.INT_MAX in *. lia.
Qed.

(** X5: a first column that does not fit an [int] is stored as the
    nearest bound and fails the stream, so the line changes neither count
    and the probability emitted for it repeats the previous one. *)
Theorem overlong_index_keeps_counts (v : vars) (rest : string) (z : Z) :
  (z < Int.INT_MIN \/ Int.INT_MAX < z)%Z ->
  stops_digits rest -> no_newline rest = true -> ratio_kept v ->
  index (body (sdec z ++ rest) v)
  = (if (z <? 0)%Z then Int.INT_MIN else Int.INT_MAX) /\
  has_mutation_total (body (sdec z ++ rest) v) = has_mutation_total v /\
  has_no_mutation_total (body (sdec z ++ rest) v) = has_no_mutation_total v /\
  probability (body (sdec z ++ rest) v) = probability v.
Proof.
  intros Hz Hrest Hnl Hk. unfold body.
  rewrite remove_newlines_app, remove_newlines_sdec, (remove_newlines_id rest Hnl).
  unfold open. rewrite (get_int_out_of_range rest z (index v) Hrest Hz).
  destruct (get_int_failed {| buf := rest; eofbit := at_end rest; failbit := true |}
              (has_mutation_total v) eq_refl) as [Hm Hf].
  destruct (get_int _ (has_mutation_total v)) as [m s2]. cbn [fst snd] in *.
  destruct (get_int_failed s2 (has_no_mutation_total v) Hf) as [Hn _].
  destruct (get_int s2 (has_no_mutation_total v)) as [n s3]. cbn [fst snd] in *.
  subst m n. cbn [index has_mutation_total has_no_mutation_total probability].
  repeat split. symmetry. exact Hk.
Qed.

(** After the row (0, 10, 90), the line "99999999999 1 1" changes no
    count. *)
Lemma overlong_index_keeps_counts_witness :
  index (body (sdec 99999999999 ++ " 1 1") (body (row " " " " 0 10 90) init))
  = Int.INT_MAX /\
  has_mutation_total (body (sdec 99999999999 ++ " 1 1") (body (row " " " " 0 10 90) init))
  = 10%Z /\
  has_no_mutation_total (body (sdec 99999999999 ++ " 1 1") (body (row " " " " 0 10 90) init))
  = 90%Z /\
  probability (body (sdec 99999999999 ++ " 1 1") (body (row " " " " 0 10 90) init))
  = 0.1%float.
Proof.
  apply (overlong_index_keeps_counts (body (row " " " " 0 10 90) init) " 1 1"
           99999999999).
  - right. unfold Int.INT_MAX. lia.
  - reflexivity.
  - reflexivity.
  - reflexivity.
Defined.

(** ** Lines and files *)

Lemma getlines_no_newline (fin : string) :
  Forall (fun l => no_newline l = true) (getlines fin).
Proof.
  induction fin as [|c r IH]; [constructor|].
  cbn [getlines]. destruct (Ascii.eqb c newline) eqn:E.
  - constructor; [reflexivity | exact IH].
  - destruct (getlines r) as [|l ls].
    + constructor; [|constructor]. cbn. now rewrite E.
    + inversion IH as [|? ? Hl Hls]; subst.
      constructor; [|exact Hls]. cbn [no_newline]. now rewrite E, Hl.
Qed.

(** X6: no line that [getline] delivers holds a newline, so the [erase] of
    line 57 never removes a character. *)
Theorem erase_removes_nothing (fin : string) :
  Forall (fun line => remove_newlines line = line) (getlines fin).
Proof.
  pose proof (getlines_no_newline fin) as H.
  induction H as [|l ls Hl Hls IH]; constructor.
  - now apply remove_newlines_id.
  - exact IH.
Qed.

Lemma getlines_cons (c : ascii) (r : string) :
  getlines (String c r)
  = if Ascii.eqb c newline then "" :: getlines r
    else match getlines r with
         | [] => [String c ""]
         | l :: ls => String c l :: ls
         end.
Proof. reflexivity. Qed.

Lemma getlines_nonempty (s : string) : s <> "" -> getlines s <> [].
Proof.
  intros Hne. destruct (until_newline_getlines s Hne) as [H _].
  rewrite H. discriminate.
Qed.

Lemma getlines_final_newline (s : string) :
  s <> "" -> ends_with_newline s = false ->
  getlines (s ++ String newline "") = getlines s.
Proof.
  induction s as [|c r IH]; intros Hne He; [contradiction|].
  destruct r as [|c' r'].
  - cbn [ends_with_newline] in He. cbn. now rewrite He.
  - change (String c (String c' r') ++ String newline "")
      with (String c (String c' r' ++ String newline "")).
    rewrite !(getlines_cons c), IH; [reflexivity | discriminate | exact He].
Qed.

(** X7: the newline that closes the last line is optional: a file that
    does not end in a newline gives the same output as the file with the
    newline added. *)
Theorem final_newline_is_optional (fin : string) :
  fin <> "" -> ends_with_newline fin = false ->
  main (fin ++ String newline "") = main fin.
Proof.
  intros Hne He. rewrite !main_emitted.
  now rewrite getlines_final_newline.
Qed.

Lemma final_newline_is_optional_witness :
  main ("0 10 90" ++ String newline "") = main "0 10 90".
Proof.
  apply (final_newline_is_optional "0 10 90"); [discriminate | reflexivity].
Defined.

Lemma getlines_app (a b : string) :
  ends_with_newline a = true -> getlines (a ++ b) = (getlines a ++ getlines b)%list.
Proof.
  induction a as [|c r IH]; intros He; [discriminate|].
  destruct r as [|c' r'].
  - cbn [ends_with_newline] in He. cbn. now rewrite He.
  - change (String c (String c' r') ++ b) with (String c (String c' r' ++ b)).
    rewrite !(getlines_cons c), IH by exact He.
    destruct (Ascii.eqb c newline); [reflexivity|].
    pose proof (getlines_nonempty (String c' r') ltac:(discriminate)) as Hn.
    destruct (getlines (String c' r')) as [|l ls]; [contradiction | reflexivity].
Qed.

Lemma emitted_app (l1 l2 : list string) :
  forall v, emitted (l1 ++ l2) v
            = (emitted l1 v ++ emitted l2 (fold_left (fun v l => body l v) l1 v))%list.
Proof.
  induction l1 as [|l l1 IH]; intros v.
  - reflexivity.
  - rewrite <- app_comm_cons. cbn [emitted fold_left].
    rewrite IH. reflexivity.
Qed.

(** X8: output is produced line by line: what a file that ends in a
    newline emits is unchanged by anything appended to it, and the
    appended part emits one value per line of its own. *)
Theorem appended_lines_extend_output (a b : string) :
  ends_with_newline a = true ->
  exists out_a tail,
    main a = Some out_a /\ main (a ++ b) = Some (out_a ++ tail)%list /\
    List.length tail = List.length (getlines b).
Proof.
  intros He.
  exists (emitted (getlines a) init),
         (emitted (getlines b) (fold_left (fun v l => body l v) (getlines a) init)).
  split; [apply main_emitted|]. split.
  - rewrite main_emitted, getlines_app by exact He.
    now rewrite emitted_app.
  - apply emitted_length.
Qed.

Lemma appended_lines_extend_output_witness :
  exists out_a tail,
    main simulation_example = Some out_a /\
    main (simulation_example ++ "abc") = Some (out_a ++ tail)%list /\
    List.length tail = List.length (getlines "abc").
Proof.
  apply (appended_lines_extend_output simulation_example "abc"). reflexivity.
Defined.

(** ** Files of rows *)

Lemma getlines_line (l x : string) :
  no_newline l = true -> getlines (l ++ String newline x) = l :: getlines x.
Proof.
  induction l as [|c l IH]; intros H.
  - reflexivity.
  - cbn [no_newline] in H. apply andb_true_iff in H. destruct H as [Hc Hl].
    apply negb_true_iff in Hc.
    change (String c l ++ String newline x) with (String c (l ++ String newline x)).
    rewrite getlines_cons, Hc, (IH Hl). reflexivity.
Qed.

Lemma getlines_unlines (ls : list string) :
  Forall (fun l => no_newline l = true) ls -> getlines (unlines ls) = ls.
Proof.
  induction 1 as [|l ls Hl Hls IH]; [reflexivity|].
  cbn [unlines]. now rewrite getlines_line, IH.
Qed.

Lemma no_newline_app (a b : string) :
  no_newline a = true -> no_newline b = true -> no_newline (a ++ b) = true.
Proof.
  induction a as [|c a IH]; intros Ha Hb; [exact Hb|].
  cbn [no_newline String.append] in *.
  apply andb_true_iff in Ha. destruct Ha as [Hc Ha].
  rewrite Hc. now apply IH.
Qed.

Lemma no_newline_sdec (z : Z) : no_newline (sdec z) = true.
Proof.
  assert (H : forall d, no_newline (NilEmpty.string_of_uint d) = true).
  { induction d; cbn [NilEmpty.string_of_uint no_newline]; [reflexivity | ..];
      cbn [Ascii.eqb newline Bool.eqb negb andb]; exact IHd. }
  unfold sdec, dec. destruct (z <? 0)%Z; [|apply H].
  cbn [no_newline Ascii.eqb newline Bool.eqb negb andb]. apply H.
Qed.

Lemma no_newline_separator (s : string) : separator s = true -> no_newline s = true.
Proof.
  induction s as [|c r IH]; [discriminate|].
  intros H. apply separator_cons in H. destruct H as [Hc Hr].
  unfold is_sep in Hc. apply andb_true_iff in Hc. destruct Hc as [_ Hn].
  cbn [no_newline]. rewrite Hn.
  destruct Hr as [-> | Hr]; [reflexivity | now apply IH].
Qed.

Lemma no_newline_row (r : counts_row) : valid_row r -> no_newline (row_text r) = true.
Proof.
  intros (H1 & H2 & _). unfold row_text, srow.
  repeat apply no_newline_app;
    first [ apply no_newline_sdec | now apply no_newline_separator ].
Qed.

Lemma emitted_rows (rows : list counts_row) :
  Forall valid_row rows ->
  forall v, emitted (map row_text rows) v
            = map (fun r => empirical (row_with r) (row_without r)) rows.
Proof.
  induction 1 as [|r rows Hr Hrows IH]; intros v; [reflexivity|].
  destruct Hr as (H1 & H2 & Hi & Hm & Hn).
  cbn [map emitted]. unfold row_text at 1 2.
  rewrite (body_srow v _ _ _ _ _ H1 H2 Hi Hm Hn).
  cbn [probability]. now rewrite IH.
Qed.

(** X9: rows of three [int]s appended to a file that is empty or ends in a
    newline emit exactly their own probabilities, one per row and in
    order, after what the file emits: neither the index column nor
    anything the earlier lines left in the variables plays a part. *)
Theorem rows_emit_their_probabilities (a : string) (rows : list counts_row) :
  a = "" \/ ends_with_newline a = true ->
  Forall valid_row rows ->
  main (a ++ unlines (map row_text rows))
  = option_map
      (fun out => (out ++ map (fun r => empirical (row_with r) (row_without r)) rows)%list)
      (main a).
Proof.
  intros Ha Hrows.
  assert (Hlines : getlines (unlines (map row_text rows)) = map row_text rows).
  { apply getlines_unlines. clear Ha.
    induction Hrows as [|r rows Hr _ IH]; constructor;
      [now apply no_newline_row | exact IH]. }
  rewrite !main_emitted. cbn [option_map]. f_equal.
  destruct Ha as [-> | He].
  - cbn [String.append getlines emitted app]. rewrite Hlines.
    now apply emitted_rows.
  - rewrite getlines_app by exact He.
    rewrite emitted_app, Hlines. f_equal. now apply emitted_rows.
Qed.

(** Two rows after a line that holds no number. *)
Lemma rows_emit_their_probabilities_witness :
  main (unlines ["abc"]
        ++ unlines (map row_text [ mkrow " " " " 0 10 90; mkrow " " " " 1 0 0 ]))
  = option_map (fun out => (out ++ [empirical 10 90; empirical 0 0])%list)
               (main (unlines ["abc"])).
Proof.
  apply (rows_emit_their_probabilities (unlines ["abc"])
           [ mkrow " " " " 0 10 90; mkrow " " " " 1 0 0 ]).
  - right. reflexivity.
  - repeat constructor; cbn; unfold Int.INT_MIN, Int.INT_MAX; lia.
Defined.

(** X12: white space in front of a row and anything behind its third
    number, a fourth column for instance, are ignored: the line is read as
    the row alone. *)
Theorem extra_columns_are_ignored
    (v : vars) (lead sep1 sep2 rest : string) (idx m n : Z) :
  blank lead = true -> separator sep1 = true -> separator sep2 = true ->
  stops_digits rest -> no_newline rest = true ->
  Int.in_range idx -> Int.in_range m -> Int.in_range n ->
  body (lead ++ srow sep1 sep2 idx m n ++ rest) v
  = body (srow sep1 sep2 idx m n) v.
Proof.
  intros Hl H1 H2 Hrest Hnl Hidx Hm Hn.
  rewrite (body_srow v sep1 sep2 idx m n H1 H2 Hidx Hm Hn).
  unfold body, srow.
  rewrite !remove_newlines_app, !remove_newlines_sdec,
    (remove_newlines_blank lead Hl), (remove_newlines_id rest Hnl),
    (remove_newlines_separator sep1 H1), (remove_newlines_separator sep2 H2).
  unfold open. rewrite !string_append_assoc.
  destruct (separator_stops sep1 (sdec m ++ sep2 ++ sdec n ++ rest) H1) as [Hs1 He1].
  destruct (separator_stops sep2 (sdec n ++ rest) H2) as [Hs2 He2].
  rewrite (get_int_signed lead _ idx (index v) (blank_all_space lead Hl) Hs1 Hidx), He1.
  rewrite (get_int_signed sep1 _ m (has_mutation_total v)
             (separator_all_space sep1 H1) Hs2 Hm), He2.
  rewrite (get_int_signed sep2 rest n (has_no_mutation_total v)
             (separator_all_space sep2 H2) Hrest Hn).
  reflexivity.
Qed.

(** The row (1, 3, 1) behind a tab and with a fourth column. *)
Lemma extra_columns_are_ignored_witness :
  body (String "009" "" ++ srow " " " " 1 3 1 ++ " 17 x") init
  = body (srow " " " " 1 3 1) init.
Proof.
  apply (extra_columns_are_ignored init (String "009" "") " " " " " 17 x" 1 3 1).
  - reflexivity.
  - reflexivity.
  - reflexivity.
  - reflexivity.
  - reflexivity.
  - unfold Int.in_range, Int.INT_MIN, Int.INT_MAX; lia.
  - unfold Int.in_range, Int.INT_MIN, Int.INT_MAX; lia.
  - unfold Int.in_range, Int.INT_MIN, Int.INT_MAX; lia.
Defined.

End CountsTextFacts.

(* ================================================================== *)
(** * Facts: where the loop of bam_driver.cc stops, and what it called *)

Module EMTraceFacts.

Import EM EMFacts EMTrace.

Lemma wrap_succ (a : Z) : Int.add (Int.wrap a) 1 = Int.wrap (a + 1).
Proof.
  unfold Int.add, Int.wrap.
  replace ((a + 2147483648) mod 4294967296 - 2147483648 + 1 + 2147483648)
    with ((a + 2147483648) mod 4294967296 + 1) by lia.
  rewrite Z.add_mod_idemp_l by lia.
  replace (a + 2147483648 + 1) with (a + 1 + 2147483648) by lia.
  reflexivity.
Qed.

Section Driver.

Context {I : Interface}.
Variable sites : TrioVector.

Lemma converged_do_test (h : vars) : converged (do_test h) = converged h.
Proof. reflexivity. Qed.

Lemma em_loop_first_equal (fuel : nat) :
  forall (h wf : vars),
    em_loop sites fuel h = Some wf <->
    exists k, (k < fuel)%nat /\
              (forall j, (j < k)%nat -> converged (loop_head sites j h) = false) /\
              converged (loop_head sites k h) = true /\
              wf = do_test (loop_head sites k h).
Proof.
  induction fuel as [|f IH]; intros h wf.
  - split; [discriminate | intros (k & Hk & _); lia].
  - cbn [em_loop]. destruct (converged h) eqn:Hc.
    + split.
      * intros [= <-]. exists 0%nat. cbn [loop_head].
        repeat split; [lia | intros j Hj; lia | exact Hc].
      * intros (k & _ & Hbefore & _ & ->). destruct k as [|k]; [reflexivity|].
        specialize (Hbefore 0%nat ltac:(lia)). cbn [loop_head] in Hbefore.
        congruence.
    + rewrite IH. split.
      * intros (k & Hk & Hbefore & Hat & ->). exists (S k). cbn [loop_head].
        repeat split; [lia | | exact Hat].
        intros [|j] Hj; [exact Hc | apply Hbefore; lia].
      * intros (k & Hk & Hbefore & Hat & ->). destruct k as [|k].
        -- cbn [loop_head] in Hat. congruence.
        -- exists k. cbn [loop_head] in *. repeat split; [lia | | exact Hat].
           intros j Hj. apply (Hbefore (S j)). lia.
Qed.

(** X10: the loop returns at the first loop head at which Equal holds and
    nowhere else: the state it returns is that head's, so on return the
    rate of the model and the last candidate are Equal; a head at which
    Equal holds is never passed. *)
Theorem em_returns_at_first_equal (p : TrioModel) (s : SufficientStatistics) :
  (forall fuel wf,
      em sites fuel p s = Some wf <->
      exists k, (k < fuel)%nat /\
                (forall j, (j < k)%nat ->
                           converged (loop_head sites j (first_head sites p s)) = false) /\
                converged (loop_head sites k (first_head sites p s)) = true /\
                wf = do_test (loop_head sites k (first_head sites p s))) /\
  (forall fuel wf,
      em sites fuel p s = Some wf ->
      Equal (sequencing_error_rate (params wf)) (maximized wf) = true).
Proof.
  split.
  - intros fuel wf. unfold em. apply em_loop_first_equal.
  - intros fuel wf Hrun. unfold em in Hrun.
    apply em_loop_first_equal in Hrun.
    destruct Hrun as (k & _ & _ & Hat & ->).
    exact Hat.
Qed.

Lemma loop_body_kinds (h : vars) :
  map kind_of (calls (loop_body sites (do_test h)))
  = map kind_of (calls h) ++ turn /\
  count (loop_body sites (do_test h)) = Int.add (count h) 1.
Proof.
  split.
  - rewrite (loop_body_calls sites (do_test h)). unfold do_test. cbn [calls maximized].
    rewrite !map_app, <- app_assoc. reflexivity.
  - unfold loop_body, do_count, do_max, do_update, do_clear, do_set, do_test.
    cbn [params stats maximized calls count].
    destruct (Update _ sites _) as [p1 s1].
    cbn [params stats maximized calls count].
    destruct (MaxSequencingErrorRate s1) as [c s2]. reflexivity.
Qed.

Lemma loop_head_kinds (k : nat) :
  forall (h : vars) (c : Z),
    count h = Int.wrap c ->
    map kind_of (calls (loop_head sites k h))
    = map kind_of (calls h) ++ List.concat (repeat turn k) /\
    count (loop_head sites k h) = Int.wrap (c + Z.of_nat k).
Proof.
  induction k as [|k IH]; intros h c Hc.
  - cbn [loop_head repeat List.concat]. rewrite app_nil_r, Z.add_0_r. now split.
  - cbn [loop_head]. destruct (loop_body_kinds h) as [Hk Hn].
    destruct (IH (loop_body sites (do_test h)) (c + 1)) as [Hk' Hn'].
    { rewrite Hn, Hc. apply wrap_succ. }
    split.
    + rewrite Hk', Hk. cbn [repeat List.concat]. now rewrite <- !app_assoc.
    + rewrite Hn'. f_equal. lia.
Qed.

(** X11: a run that returns has called Update and MaxSequencingErrorRate
    once, then as many times as the loop turned Equal,
    set_sequencing_error_rate, Clear, Update and MaxSequencingErrorRate in
    that order, then Equal once more; [count] is that number of turns as a
    32-bit integer. *)
Theorem em_calls_have_run_shape
    (p : TrioModel) (s : SufficientStatistics) (fuel : nat) (wf : vars) :
  em sites fuel p s = Some wf ->
  exists k, (k < fuel)%nat /\
            map kind_of (calls wf) = run_shape k /\
            count wf = Int.wrap (Z.of_nat k).
Proof.
  intros Hrun. unfold em in Hrun. apply em_loop_first_equal in Hrun.
  destruct Hrun as (k & Hk & _ & _ & ->). exists k. split; [exact Hk|].
  destruct (first_head_count sites p s) as (H0 & c & Hcalls).
  destruct (loop_head_kinds k (first_head sites p s) 0) as [Hkinds Hcount].
  { rewrite H0. reflexivity. }
  split.
  - unfold do_test. cbn [calls]. rewrite map_app, Hkinds, Hcalls.
    unfold run_shape. cbn [map kind_of app]. now rewrite <- app_assoc.
  - unfold do_test. cbn [count]. exact Hcount.
Qed.

End Driver.

(** The toy instance from the rate 0.01 turns 45 times. *)
Lemma em_calls_have_run_shape_witness :
  exists wf k,
    em (I:=halving) tt 100 0.01%float 0%float = Some wf /\
    (k < 100)%nat /\
    map kind_of (calls wf) = run_shape k /\
    count wf = Int.wrap (Z.of_nat k).
Proof.
  assert (H : exists wf, em (I:=halving) tt 100 0.01%float 0%float = Some wf)
    by (vm_compute; eexists; reflexivity).
  destruct H as [wf H]. exists wf.
  destruct (em_calls_have_run_shape (I:=halving) tt 0.01%float 0%float 100 wf H)
    as (k & Hk & Hshape & Hcount).
  exists k. repeat split; assumption.
Defined.

End EMTraceFacts.
